(** * CoinGecko API client: request building and response normalisation

    A shallow embedding of [src/index.js] (class [CoinGecko]): the endpoint
    catalogue, [_insertApiKeyIntoParams], [_resolveHost],
    [_buildRequestOptions] and the event handlers installed by [_request].

    JavaScript values are an inductive type, objects are association lists in
    insertion order (the order [querystring.stringify] walks them), strings
    are byte strings (UTF-8), numbers are the integers.  Warnings emitted with
    [Utils._WARN_] and thrown [TypeError]s are threaded through a small
    writer/error monad.  The promise returned by [_request] is a state that
    settles at most once. *)

From Stdlib Require Import ZArith String List Ascii DecimalString Bool Lia.
Import ListNotations.

Set Warnings "-register-all".

Open Scope string_scope.

(** ** JavaScript values *)

Module JS.

(** The values the statements range over: [undefined], [null], booleans,
    integer numbers, strings, arrays and plain objects.  Strings are
    well-formed text (bytes of its UTF-8 form; no unpaired surrogate), and
    objects hold data only.  A [Symbol], on which a template literal throws,
    and a string with an unpaired surrogate, on which [querystring.escape]
    throws, are outside this type: nothing below speaks about calls that
    are given one.  An object keeps its own properties in insertion order;
    the property names used by the client are never array indices, so
    insertion order is enumeration order. *)
Inductive value : Type :=
| VUndefined
| VNull
| VBool (b : bool)
| VNum (n : Z)
| VStr (s : string)
| VArr (elems : list value)
| VObj (props : list (string * value)).

(** The decimal digits of an integer, as JavaScript prints integers of
    magnitude below 1e21. *)
Definition Z_to_string (n : Z) : string :=
  NilZero.string_of_int (Z.to_int n).

(** [ToString], as applied by template literals and by
    [Array.prototype.join]: inside an array [undefined] and [null] print as
    the empty string. *)
Fixpoint ToString (v : value) : string :=
  match v with
  | VUndefined => "undefined"
  | VNull => "null"
  | VBool true => "true"
  | VBool false => "false"
  | VNum n => Z_to_string n
  | VStr s => s
  | VArr l =>
      String.concat ","
        (map (fun e => match e with
                       | VUndefined | VNull => EmptyString
                       | _ => ToString e
                       end) l)
  | VObj _ => "[object Object]"
  end.

Definition elemToString (e : value) : string :=
  match e with
  | VUndefined | VNull => EmptyString
  | _ => ToString e
  end.

(** [arr.join(sep)] *)
Definition join (sep : string) (l : list value) : string :=
  String.concat sep (map elemToString l).

(** Truthiness, for [!params['contract_addresses']]. *)
Definition truthy (v : value) : bool :=
  match v with
  | VUndefined | VNull => false
  | VBool b => b
  | VNum n => negb (n =? 0)%Z
  | VStr s => negb (s =? EmptyString)
  | VArr _ | VObj _ => true
  end.

(** [v == undefined] (loose equality): true of [undefined] and [null]. *)
Definition looseEqUndefined (v : value) : bool :=
  match v with
  | VUndefined | VNull => true
  | _ => false
  end.

(** A default parameter value [f(x = d)]: used when the argument is
    [undefined], whether omitted or passed explicitly. *)
Definition default (arg d : value) : value :=
  match arg with
  | VUndefined => d
  | _ => arg
  end.

(** Own properties of an object, first binding wins. *)
Fixpoint lookup (k : string) (o : list (string * value)) : option value :=
  match o with
  | [] => None
  | (k', v) :: rest => if (k' =? k) then Some v else lookup k rest
  end.

(** [o[k] = v] on an object: an existing property keeps its place, a new
    one goes last. *)
Fixpoint assign (k : string) (v : value) (o : list (string * value))
  : list (string * value) :=
  match o with
  | [] => [(k, v)]
  | (k', v') :: rest =>
      if (k' =? k) then (k, v) :: rest
      else (k', v') :: assign k v rest
  end.

(** [o[k]] on an object. *)
Definition get (k : string) (o : list (string * value)) : value :=
  match lookup k o with
  | Some v => v
  | None => VUndefined
  end.

Inductive Error : Type :=
| TypeError (message : string)
| SyntaxError (message : string)
| PlainError (message : string)
| SystemError (code : string).

(** [p[k]] for a non-index, non-builtin name [k]: reading from [undefined]
    or [null] throws, reading from any other value that lacks the property
    gives [undefined]. *)
Definition getProp (p : value) (k : string) : Error + value :=
  match p with
  | VUndefined => inl (TypeError "Cannot read properties of undefined")
  | VNull => inl (TypeError "Cannot read properties of null")
  | VObj o => inr (get k o)
  | _ => inr VUndefined
  end.

(** [p[k] = v] in strict mode (the file starts with ['use strict']):
    throws on [undefined], [null] and on primitives.  An array accepts the
    named property; it is not an element and is never read back by the
    client, so the array is returned as it is. *)
Definition setProp (p : value) (k : string) (v : value) : Error + value :=
  match p with
  | VUndefined => inl (TypeError "Cannot set properties of undefined")
  | VNull => inl (TypeError "Cannot set properties of null")
  | VBool _ | VNum _ | VStr _ =>
      inl (TypeError "Cannot create property on primitive")
  | VArr l => inr (VArr l)
  | VObj o => inr (VObj (assign k v o))
  end.

(** [v.join(sep)]: only arrays have the method. *)
Definition callJoin (v : value) (sep : string) : Error + string :=
  match v with
  | VArr l => inr (join sep l)
  | _ => inl (TypeError "join is not a function")
  end.

(** [s.startsWith(p)] *)
Definition startsWith (p s : string) : bool := String.prefix p s.

End JS.
Export JS.

(** ** Warnings and exceptions *)

Record Warning : Type := mkWarning { title : string; detail : string }.

Inductive Outcome (A : Type) : Type :=
| Threw (e : Error)
| Returned (a : A).
Arguments Threw {A} e.
Arguments Returned {A} a.

(** A computation appends to the warning log and either throws or returns. *)
Definition M (A : Type) : Type := list Warning -> list Warning * Outcome A.

Definition ret {A} (a : A) : M A := fun w => (w, Returned a).

Definition throw {A} (e : Error) : M A := fun w => (w, Threw e).

Definition bind {A B} (m : M A) (f : A -> M B) : M B :=
  fun w =>
    match m w with
    | (w', Threw e) => (w', Threw e)
    | (w', Returned a) => f a w'
    end.

Definition lift {A} (r : Error + A) : M A :=
  match r with
  | inl e => throw e
  | inr a => ret a
  end.

(** [if (c) m;] with the value of [m] dropped. *)
Definition when {A} (c : bool) (m : M A) : M unit :=
  if c then bind m (fun _ => ret tt) else ret tt.

Notation "x <- m ;; k" := (bind m (fun x => k))
  (at level 61, m at next level, right associativity).
Notation "m ;;; k" := (bind m (fun _ => k))
  (at level 61, right associativity).

Definition run {A} (m : M A) : list Warning * Outcome A := m [].

(** ** helpers/utilities *)

Module Utils.

(** Modelled from the spec: [helpers/utilities.js] is not among the
    sources (only its declarations are); section 4.1 describes its
    functions as pure, total type predicates that never throw. *)
Definition isString (v : value) : bool :=
  match v with VStr _ => true | _ => false end.

(** Modelled from the spec: the number predicate of section 4.1
    ([helpers/utilities.js] is not among the sources). *)
Definition isNumber (v : value) : bool :=
  match v with VNum _ => true | _ => false end.

(** Modelled from the spec: the array predicate of section 4.1
    ([helpers/utilities.js] is not among the sources). *)
Definition isArray (v : value) : bool :=
  match v with VArr _ => true | _ => false end.

(** Modelled from the spec: the object predicate of section 4.1
    ([helpers/utilities.js] is not among the sources); section 4.3 has
    non-object parameters treated as absent, and arrays have a predicate of
    their own. *)
Definition isObject (v : value) : bool :=
  match v with VObj _ => true | _ => false end.

Definition isWhite (c : ascii) : bool :=
  let n := nat_of_ascii c in
  ((9 <=? n) && (n <=? 13) || (n =? 32))%nat.

Fixpoint allWhite (s : string) : bool :=
  match s with
  | EmptyString => true
  | String c r => isWhite c && allWhite r
  end.

(** Modelled from the spec: [isStringEmpty] returns true for
    null/undefined/zero-length trimmed string (section 4.1); a string trims
    to length zero exactly when all of it is white space. *)
Definition isStringEmpty (v : value) : bool :=
  match v with
  | VUndefined | VNull => true
  | VStr s => allWhite s
  | _ => false
  end.

(** Modelled from the spec: [_WARN_] writes a formatted diagnostic line
    (title + detail) and returns false, and execution proceeds
    (section 4.1). *)
Definition _WARN_ (title detail : string) : M bool :=
  fun w => ((w ++ [mkWarning title detail])%list, Returned false).

End Utils.

(** ** Node's querystring codec *)

Module querystring.

Definition hexDigit (n : nat) : ascii :=
  ascii_of_nat (if (n <? 10)%nat then 48 + n else 55 + n).

(** Characters [querystring.escape] leaves alone:
    [A-Z a-z 0-9 - _ . ! ~ * ' ( )]. *)
Definition unreserved (c : ascii) : bool :=
  let n := nat_of_ascii c in
  ((65 <=? n) && (n <=? 90) || (97 <=? n) && (n <=? 122)
   || (48 <=? n) && (n <=? 57))%nat
  || existsb (Nat.eqb n) [45; 95; 46; 33; 126; 42; 39; 40; 41].

Definition escapeChar (c : ascii) : string :=
  if unreserved c then String c EmptyString
  else
    let n := nat_of_ascii c in
    String "%" (String (hexDigit (n / 16)) (String (hexDigit (n mod 16)) EmptyString)).

(** [querystring.escape]: every other byte of the UTF-8 text becomes
    [%XX] with upper-case hexadecimal digits.  (Node throws a [URIError] on
    an unpaired surrogate; well-formed text has none.) *)
Fixpoint escape (s : string) : string :=
  match s with
  | EmptyString => EmptyString
  | String c r => escapeChar c ++ escape r
  end.

(** What [stringify] prints for a value: strings, finite numbers and
    booleans; anything else is the empty string. *)
Definition stringifyPrimitive (v : value) : string :=
  match v with
  | VStr s => s
  | VNum n => Z_to_string n
  | VBool true => "true"
  | VBool false => "false"
  | _ => EmptyString
  end.

(** The (name, value) fields an object is serialised to: one per scalar
    property, one per element of an array-valued property. *)
Definition fieldsOf (kv : string * value) : list (string * string) :=
  match kv with
  | (k, VArr l) => map (fun e => (k, stringifyPrimitive e)) l
  | (k, v) => [(k, stringifyPrimitive v)]
  end.

Definition fields (o : list (string * value)) : list (string * string) :=
  flat_map fieldsOf o.

Definition encodeField (f : string * string) : string :=
  escape (fst f) ++ "=" ++ escape (snd f).

(** [querystring.stringify(obj)] with the default separators. *)
Definition stringify (v : value) : string :=
  match v with
  | VObj o => String.concat "&" (map encodeField (fields o))
  | _ => EmptyString
  end.

End querystring.

(** ** The client *)

Module CoinGecko.

Import Utils.

Definition BASE : string := "https://api.coingecko.com/api/".
Definition HOST : string := "api.coingecko.com".
Definition PRO_HOST : string := "pro-api.coingecko.com".
Definition API_VERSION : string := "3".
Definition URI : string := BASE ++ "v" ++ API_VERSION.
Definition REQUESTS_PER_SECOND : Z := 10.
Definition TIMEOUT : Z := 30000.

(** A client instance.  [static_TIMEOUT] is the current value of the class
    property [CoinGecko.TIMEOUT], which the module sets to [TIMEOUT] and
    which is read again at every use. *)
Record this_t : Type := mkClient {
  _apiKey : value;
  static_TIMEOUT : Z
}.

(** [constructor(apiKey=null)] *)
Definition constructor (apiKey : value) : this_t :=
  {| _apiKey := default apiKey VNull; static_TIMEOUT := TIMEOUT |}.

Record RequestOptions : Type := mkOptions {
  path : string;
  method : string;
  host : string;
  port : Z;
  timeout : Z
}.

(** [this._apiKey !== null] *)
Definition _shouldCallPro (this : this_t) : bool :=
  match _apiKey this with
  | VNull => false
  | _ => true
  end.

(** The caller's object is updated in place; the updated object is what
    the function returns. *)
Definition _insertApiKeyIntoParams (this : this_t) (params : value) : value :=
  if isObject params && _shouldCallPro this then
    match params with
    | VObj o => VObj (assign "x_cg_pro_api_key" (_apiKey this) o)
    | _ => params
    end
  else params.

Definition _resolveHost (this : this_t) : string :=
  if _shouldCallPro this then PRO_HOST else HOST.

(** The local [params] of [_buildRequestOptions] after the stringify step:
    the query string, or [None] for [undefined]. *)
Definition queryString (this : this_t) (params : value) : option string :=
  let params := _insertApiKeyIntoParams this params in
  if isObject params then Some (querystring.stringify params) else None.

Definition _buildRequestOptions (this : this_t) (path : string)
    (params : value) : RequestOptions :=
  let params := queryString this params in
  let path :=
    match params with
    | None => "/api/v" ++ API_VERSION ++ path
    | Some q => "/api/v" ++ API_VERSION ++ path ++ "?" ++ q
    end in
  {| path := path;
     method := "GET";
     host := _resolveHost this;
     port := 443;
     timeout := static_TIMEOUT this |}.

(** The synchronous part of [_request]: the options are built, and they
    are the options [https.request(options, ...)] is called with inside the
    promise.  Whether the transport takes them (it refuses a path with a
    space or a character outside U+0021..U+00FF, which rejects the promise)
    and what happens to the promise afterwards is not part of this
    function; the handlers are the subject of the transport section
    below. *)
Definition _request (this : this_t) (path : string) (params : value)
  : M RequestOptions :=
  ret (_buildRequestOptions this path params).

(** *** Blocks the endpoints repeat *)

(** [if (!Utils.isString(x) || Utils.isStringEmpty(x))] *)
Definition notNonEmptyString (x : value) : bool :=
  negb (isString x) || isStringEmpty x.

Definition mustBeString (name : string) (x : value) : M unit :=
  when (notNonEmptyString x)
    (_WARN_ "Invalid parameter"
       (name ++ " must be of type: String and greater than 0 characters.")).

Definition mustBeObject (params : value) : M unit :=
  when (negb (isObject params))
    (_WARN_ "Invalid parameter" "params must be of type: Object").

(** [if (!Utils.isString(params[f]) || Utils.isStringEmpty(params[f]))
    params[f] = 'usd';] *)
Definition defaultUsd (f : string) (params : value) : M value :=
  v <- lift (getProp params f) ;;
  if notNonEmptyString v then lift (setProp params f (VStr "usd"))
  else ret params.

(** [if (params['days'] == undefined) params.days = 1;] *)
Definition defaultDays (params : value) : M value :=
  v <- lift (getProp params "days") ;;
  if looseEqUndefined v then lift (setProp params "days" (VNum 1))
  else ret params.

(** [if (Utils.isArray(params[f])) params[f] = params[f].join(',');] *)
Definition joinArray (f : string) (params : value) : M value :=
  v <- lift (getProp params f) ;;
  if isArray v then
    s <- lift (callJoin v ",") ;;
    lift (setProp params f (VStr s))
  else ret params.

(** [if (!Utils.isNumber(params[f])) Utils._WARN_('Missing parameter', ...)] *)
Definition mustHaveTimestamp (f : string) (params : value) : M unit :=
  v <- lift (getProp params f) ;;
  when (negb (isNumber v))
    (_WARN_ "Missing parameter"
       ("params must include `" ++ f ++ "` and be a UNIX timestamp.")).

(** [if (!params[f]) Utils._WARN_('Missing parameter', ...)] *)
Definition mustHave (f : string) (params : value) : M unit :=
  v <- lift (getProp params f) ;;
  when (negb (truthy v))
    (_WARN_ "Missing parameter"
       ("params must include `" ++ f ++ "` and be a of type: String or Object")).

(** [ping()] and [global()] *)
Definition ping (this : this_t) : M RequestOptions :=
  let path := "/ping" in
  _request this path VUndefined.

Definition global (this : this_t) : M RequestOptions :=
  let path := "/global" in
  _request this path VUndefined.

Module coins.

Definition pathPrefix : string := "coins".

Definition all (this : this_t) (params : value) : M RequestOptions :=
  let params := default params (VObj []) in
  let path := "/" ++ pathPrefix in
  _request this path params.

Definition list (this : this_t) : M RequestOptions :=
  let path := "/" ++ pathPrefix ++ "/list" in
  _request this path VUndefined.

Definition markets (this : this_t) (params : value) : M RequestOptions :=
  let params := default params (VObj []) in
  let path := "/" ++ pathPrefix ++ "/markets" in
  mustBeObject params ;;;
  params <- defaultUsd "vs_currency" params ;;
  params <- joinArray "ids" params ;;
  _request this path params.

Definition fetch (this : this_t) (coinId params : value)
  : M RequestOptions :=
  let params := default params (VObj []) in
  mustBeString "coinId" coinId ;;;
  let path := "/" ++ pathPrefix ++ "/" ++ ToString coinId in
  _request this path params.

Definition fetchTickers (this : this_t) (coinId params : value)
  : M RequestOptions :=
  let params := default params (VObj []) in
  mustBeString "coinId" coinId ;;;
  params <- joinArray "exchange_ids" params ;;
  let path := "/" ++ pathPrefix ++ "/" ++ ToString coinId ++ "/tickers" in
  _request this path params.

Definition fetchHistory (this : this_t) (coinId params : value)
  : M RequestOptions :=
  let params := default params (VObj []) in
  mustBeString "coinId" coinId ;;;
  mustBeObject params ;;;
  date <- lift (getProp params "date") ;;
  when (notNonEmptyString date)
    (_WARN_ "Missing parameter"
       "params must include `date` and be a string in format: `dd-mm-yyyy`") ;;;
  let path := "/" ++ pathPrefix ++ "/" ++ ToString coinId ++ "/history" in
  _request this path params.

Definition fetchMarketChart (this : this_t) (coinId params : value)
  : M RequestOptions :=
  let params := default params (VObj []) in
  mustBeString "coinId" coinId ;;;
  mustBeObject params ;;;
  params <- defaultUsd "vs_currency" params ;;
  params <- defaultDays params ;;
  let path :=
    "/" ++ pathPrefix ++ "/" ++ ToString coinId ++ "/market_chart" in
  _request this path params.

Definition fetchMarketChartRange (this : this_t) (coinId params : value)
  : M RequestOptions :=
  let params := default params (VObj []) in
  mustBeString "coinId" coinId ;;;
  mustBeObject params ;;;
  params <- defaultUsd "vs_currency" params ;;
  mustHaveTimestamp "from" params ;;;
  mustHaveTimestamp "to" params ;;;
  let path :=
    "/" ++ pathPrefix ++ "/" ++ ToString coinId ++ "/market_chart/range" in
  _request this path params.

Definition fetchCoinContractInfo (this : this_t)
    (contractAddress assetPlatform : value) : M RequestOptions :=
  let assetPlatform := default assetPlatform (VStr "ethereum") in
  mustBeString "contractAddress" contractAddress ;;;
  mustBeString "assetPlatform" assetPlatform ;;;
  let path :=
    "/" ++ pathPrefix ++ "/" ++ ToString assetPlatform ++ "/contract/"
    ++ ToString contractAddress in
  _request this path VUndefined.

Definition fetchCoinContractMarketChart (this : this_t)
    (contractAddress assetPlatform params : value) : M RequestOptions :=
  let assetPlatform := default assetPlatform (VStr "ethereum") in
  let params := default params (VObj []) in
  mustBeString "contractAddress" contractAddress ;;;
  mustBeString "assetPlatform" assetPlatform ;;;
  mustBeObject params ;;;
  params <- defaultUsd "vs_currency" params ;;
  params <- defaultDays params ;;
  let path :=
    "/" ++ pathPrefix ++ "/" ++ ToString assetPlatform ++ "/contract/"
    ++ ToString contractAddress ++ "/market_chart" in
  _request this path params.

Definition fetchCoinContractMarketChartRange (this : this_t)
    (contractAddress assetPlatform params : value) : M RequestOptions :=
  let assetPlatform := default assetPlatform (VStr "ethereum") in
  let params := default params (VObj []) in
  mustBeString "contractAddress" contractAddress ;;;
  mustBeString "assetPlatform" assetPlatform ;;;
  mustBeObject params ;;;
  params <- defaultUsd "vs_currency" params ;;
  params <- defaultDays params ;;
  let path :=
    "/" ++ pathPrefix ++ "/" ++ ToString assetPlatform ++ "/contract/"
    ++ ToString contractAddress ++ "/market_chart/range" in
  _request this path params.

End coins.

Module exchanges.

Definition pathPrefix : string := "exchanges".

Definition all (this : this_t) : M RequestOptions :=
  let path := "/" ++ pathPrefix in
  _request this path VUndefined.

Definition list (this : this_t) : M RequestOptions :=
  let path := "/" ++ pathPrefix ++ "/list" in
  _request this path VUndefined.

Definition fetch (this : this_t) (exchangeId : value) : M RequestOptions :=
  mustBeString "exchangeId" exchangeId ;;;
  let path := "/" ++ pathPrefix ++ "/" ++ ToString exchangeId in
  _request this path VUndefined.

Definition fetchTickers (this : this_t) (exchangeId params : value)
  : M RequestOptions :=
  let params := default params (VObj []) in
  mustBeString "exchangeId" exchangeId ;;;
  params <- joinArray "coin_ids" params ;;
  let path :=
    "/" ++ pathPrefix ++ "/" ++ ToString exchangeId ++ "/tickers" in
  _request this path params.

Definition fetchVolumeChart (this : this_t) (exchangeId params : value)
  : M RequestOptions :=
  let params := default params (VObj []) in
  mustBeString "exchangeId" exchangeId ;;;
  let path :=
    "/" ++ pathPrefix ++ "/" ++ ToString exchangeId ++ "/volume_chart" in
  _request this path params.

End exchanges.

Module exchangeRates.

Definition all (this : this_t) : M RequestOptions :=
  let path := "/exchange_rates" in
  _request this path VUndefined.

End exchangeRates.

Module simple.

Definition price (this : this_t) (params : value) : M RequestOptions :=
  let params := default params (VObj []) in
  mustBeObject params ;;;
  params <- joinArray "vs_currencies" params ;;
  params <- defaultUsd "vs_currencies" params ;;
  params <- joinArray "ids" params ;;
  ids <- lift (getProp params "ids") ;;
  when (notNonEmptyString ids)
    (_WARN_ "Invalid parameter"
       "params.ids must be of type: String or Array and greater than 0 characters.") ;;;
  let path := "/simple/price" in
  _request this path params.

Definition supportedVsCurrencies (this : this_t) : M RequestOptions :=
  let path := "/simple/supported_vs_currencies" in
  _request this path VUndefined.

Definition fetchTokenPrice (this : this_t) (params assetPlatform : value)
  : M RequestOptions :=
  let params := default params (VObj []) in
  let assetPlatform := default assetPlatform (VStr "ethereum") in
  mustBeObject params ;;;
  mustBeString "assetPlatform" assetPlatform ;;;
  mustHave "contract_addresses" params ;;;
  mustHave "vs_currencies" params ;;;
  params <- joinArray "contract_addresses" params ;;
  params <- joinArray "vs_currencies" params ;;
  let path := "/simple/token_price/" ++ ToString assetPlatform in
  _request this path params.

End simple.

Module assetPlatforms.

Definition all (this : this_t) (params : value) : M RequestOptions :=
  let params := default params (VObj []) in
  let path := "/asset_platforms" in
  _request this path params.

End assetPlatforms.

Module indexes.

Definition pathPrefix : string := "indexes".

Definition all (this : this_t) (params : value) : M RequestOptions :=
  let params := default params (VObj []) in
  let path := "/" ++ pathPrefix in
  _request this path params.

Definition fetch (this : this_t) (marketId indexId : value)
  : M RequestOptions :=
  mustBeString "marketId" marketId ;;;
  mustBeString "indexId" indexId ;;;
  let path :=
    "/" ++ pathPrefix ++ "/" ++ ToString marketId ++ "/"
    ++ ToString indexId in
  _request this path VUndefined.

Definition list (this : this_t) : M RequestOptions :=
  let path := "/" ++ pathPrefix ++ "/list" in
  _request this path VUndefined.

End indexes.

Module derivatives.

Definition pathPrefix : string := "derivatives".

Definition fetchTickers (this : this_t) : M RequestOptions :=
  let path := "/" ++ pathPrefix in
  _request this path VUndefined.

Definition allExchanges (this : this_t) (params : value)
  : M RequestOptions :=
  let params := default params (VObj []) in
  let path := "/" ++ pathPrefix ++ "/exchanges" in
  _request this path params.

Definition fetchExchange (this : this_t) (exchangeId params : value)
  : M RequestOptions :=
  let params := default params (VObj []) in
  mustBeString "exchangeId" exchangeId ;;;
  let path := "/" ++ pathPrefix ++ "/exchanges/" ++ ToString exchangeId in
  _request this path params.

Definition listExchanges (this : this_t) : M RequestOptions :=
  let path := "/" ++ pathPrefix ++ "/exchanges/list" in
  _request this path VUndefined.

End derivatives.

(** *** The catalogue

    A method call on a client: which endpoint, with which arguments.  An
    argument the caller leaves out is [VUndefined]. *)
Inductive Endpoint : Type :=
| ping_
| global_
| coins_all (params : value)
| coins_list
| coins_markets (params : value)
| coins_fetch (coinId params : value)
| coins_fetchTickers (coinId params : value)
| coins_fetchHistory (coinId params : value)
| coins_fetchMarketChart (coinId params : value)
| coins_fetchMarketChartRange (coinId params : value)
| coins_fetchCoinContractInfo (contractAddress assetPlatform : value)
| coins_fetchCoinContractMarketChart
    (contractAddress assetPlatform params : value)
| coins_fetchCoinContractMarketChartRange
    (contractAddress assetPlatform params : value)
| exchanges_all
| exchanges_list
| exchanges_fetch (exchangeId : value)
| exchanges_fetchTickers (exchangeId params : value)
| exchanges_fetchVolumeChart (exchangeId params : value)
| exchangeRates_all
| simple_price (params : value)
| simple_supportedVsCurrencies
| simple_fetchTokenPrice (params assetPlatform : value)
| assetPlatforms_all (params : value)
| indexes_all (params : value)
| indexes_fetch (marketId indexId : value)
| indexes_list
| derivatives_fetchTickers
| derivatives_allExchanges (params : value)
| derivatives_fetchExchange (exchangeId params : value)
| derivatives_listExchanges.

Definition call (this : this_t) (e : Endpoint) : M RequestOptions :=
  match e with
  | ping_ => ping this
  | global_ => global this
  | coins_all params => coins.all this params
  | coins_list => coins.list this
  | coins_markets params => coins.markets this params
  | coins_fetch coinId params => coins.fetch this coinId params
  | coins_fetchTickers coinId params => coins.fetchTickers this coinId params
  | coins_fetchHistory coinId params => coins.fetchHistory this coinId params
  | coins_fetchMarketChart coinId params =>
      coins.fetchMarketChart this coinId params
  | coins_fetchMarketChartRange coinId params =>
      coins.fetchMarketChartRange this coinId params
  | coins_fetchCoinContractInfo contractAddress assetPlatform =>
      coins.fetchCoinContractInfo this contractAddress assetPlatform
  | coins_fetchCoinContractMarketChart contractAddress assetPlatform params =>
      coins.fetchCoinContractMarketChart this contractAddress assetPlatform
        params
  | coins_fetchCoinContractMarketChartRange contractAddress assetPlatform
      params =>
      coins.fetchCoinContractMarketChartRange this contractAddress
        assetPlatform params
  | exchanges_all => exchanges.all this
  | exchanges_list => exchanges.list this
  | exchanges_fetch exchangeId => exchanges.fetch this exchangeId
  | exchanges_fetchTickers exchangeId params =>
      exchanges.fetchTickers this exchangeId params
  | exchanges_fetchVolumeChart exchangeId params =>
      exchanges.fetchVolumeChart this exchangeId params
  | exchangeRates_all => exchangeRates.all this
  | simple_price params => simple.price this params
  | simple_supportedVsCurrencies => simple.supportedVsCurrencies this
  | simple_fetchTokenPrice params assetPlatform =>
      simple.fetchTokenPrice this params assetPlatform
  | assetPlatforms_all params => assetPlatforms.all this params
  | indexes_all params => indexes.all this params
  | indexes_fetch marketId indexId => indexes.fetch this marketId indexId
  | indexes_list => indexes.list this
  | derivatives_fetchTickers => derivatives.fetchTickers this
  | derivatives_allExchanges params => derivatives.allExchanges this params
  | derivatives_fetchExchange exchangeId params =>
      derivatives.fetchExchange this exchangeId params
  | derivatives_listExchanges => derivatives.listExchanges this
  end.

(** The [params] argument of a call; [VUndefined] when the endpoint takes
    none. *)
Definition paramsOf (e : Endpoint) : value :=
  match e with
  | coins_all params | coins_markets params
  | coins_fetch _ params | coins_fetchTickers _ params
  | coins_fetchHistory _ params | coins_fetchMarketChart _ params
  | coins_fetchMarketChartRange _ params
  | coins_fetchCoinContractMarketChart _ _ params
  | coins_fetchCoinContractMarketChartRange _ _ params
  | exchanges_fetchTickers _ params | exchanges_fetchVolumeChart _ params
  | simple_price params | simple_fetchTokenPrice params _
  | assetPlatforms_all params | indexes_all params
  | derivatives_allExchanges params | derivatives_fetchExchange _ params =>
      params
  | _ => VUndefined
  end.

(** The endpoints declared without any argument. *)
Definition noArguments (e : Endpoint) : bool :=
  match e with
  | ping_ | global_ | coins_list | exchanges_all | exchanges_list
  | exchangeRates_all | simple_supportedVsCurrencies | indexes_list
  | derivatives_fetchTickers | derivatives_listExchanges => true
  | _ => false
  end.

End CoinGecko.

(** ** The promise returned by [_request] *)

Module Transport.

Import Utils CoinGecko.

(** What the handlers read from the response object. *)
Record Response : Type := mkResponse {
  statusCode : Z;
  statusMessage : string
}.

Section WithJSON.

(** [JSON.parse] belongs to the runtime: the handlers are stated for any
    parser that returns a value or throws. *)
Variable JSONValue : Type.
Variable JSON_parse : string -> Error + JSONValue.

(** The return object.  [data] is the local [body]: the parsed value, or
    still the text when [JSON.parse] threw. *)
Record ReturnObject : Type := mkReturn {
  success : bool;
  message : string;
  code : Z;
  data : JSONValue + string
}.

Inductive Promise : Type :=
| Pending
| Fulfilled (r : ReturnObject)
| Rejected (error : Error).

(** A promise settles once: later calls of [resolve] and [reject] are
    ignored. *)
Definition resolve (p : Promise) (r : ReturnObject) : Promise :=
  match p with
  | Pending => Fulfilled r
  | _ => p
  end.

Definition reject (p : Promise) (error : Error) : Promise :=
  match p with
  | Pending => Rejected error
  | _ => p
  end.

(** One request in flight: the chunks pushed so far (oldest first), the
    promise, whether [req.abort()] was called, and the warnings emitted. *)
Record Request : Type := mkRequest {
  body : list string;
  promise : Promise;
  aborted : bool;
  warnings : list Warning
}.

Definition initial : Request :=
  {| body := []; promise := Pending; aborted := false; warnings := [] |}.

Inductive Event : Type :=
| data_ (chunk : string)
| end_
| error_ (error : Error)
| timeout_.

(** [Buffer.concat(body).toString()] *)
Definition bodyText (chunks : list string) : string :=
  String.concat EmptyString chunks.

Definition bodyWarnings (text : string) : M unit :=
  if startsWith "<!DOCTYPE html>" text then
    _WARN_ "Invalid request"
      "There was a problem with your request. The parameter(s) you gave are missing or incorrect." ;;;
    ret tt
  else if startsWith "Throttled" text then
    _WARN_ "Throttled request" "There was a problem with request limit." ;;;
    ret tt
  else ret tt.

Definition returnObject (res : Response) (body : JSONValue + string)
  : ReturnObject :=
  {| success := negb ((statusCode res <? 200)%Z || (statusCode res >=? 300)%Z);
     message := statusMessage res;
     code := statusCode res;
     data := body |}.

(** [res.on('end', ...)]: the [catch] block rejects and falls through to
    the [resolve] call that follows the [try] statement. *)
Definition on_end (res : Response) (r : Request) : Request :=
  let text := bodyText (body r) in
  let w := fst (bodyWarnings text (warnings r)) in
  match JSON_parse text with
  | inl error =>
      let p := reject (promise r) error in
      {| body := body r;
         promise := resolve p (returnObject res (inr text));
         aborted := aborted r;
         warnings := w |}
  | inr json =>
      {| body := body r;
         promise := resolve (promise r) (returnObject res (inl json));
         aborted := aborted r;
         warnings := w |}
  end.

Definition timeoutMessage (this : this_t) : string :=
  "CoinGecko API request timed out. Current timeout is: "
  ++ Z_to_string (static_TIMEOUT this) ++ " milliseconds".

(** The four handlers [_request] installs. *)
Definition handle (this : this_t) (res : Response) (r : Request)
    (ev : Event) : Request :=
  match ev with
  | data_ chunk =>
      {| body := (body r ++ [chunk])%list; promise := promise r;
         aborted := aborted r; warnings := warnings r |}
  | end_ => on_end res r
  | error_ error =>
      {| body := body r; promise := reject (promise r) error;
         aborted := aborted r; warnings := warnings r |}
  | timeout_ =>
      {| body := body r;
         promise := reject (promise r) (PlainError (timeoutMessage this));
         aborted := true; warnings := warnings r |}
  end.

Definition handleAll (this : this_t) (res : Response)
    (evs : list Event) (r : Request) : Request :=
  fold_left (handle this res) evs r.

End WithJSON.

Arguments Pending {JSONValue}.
Arguments Fulfilled {JSONValue} r.
Arguments Rejected {JSONValue} error.
Arguments mkReturn {JSONValue}.
Arguments success {JSONValue}.
Arguments message {JSONValue}.
Arguments code {JSONValue}.
Arguments data {JSONValue}.
Arguments promise {JSONValue}.
Arguments body {JSONValue}.
Arguments aborted {JSONValue}.
Arguments warnings {JSONValue}.
Arguments initial {JSONValue}.

End Transport.

(** ** Reading a query string back *)

Module QueryReader.

Definition occurs (c : ascii) (s : string) : bool :=
  existsb (Ascii.eqb c) (list_ascii_of_string s).

Definition hexValue (c : ascii) : option nat :=
  let n := nat_of_ascii c in
  if ((48 <=? n) && (n <=? 57))%nat then Some (n - 48)%nat
  else if ((65 <=? n) && (n <=? 70))%nat then Some (n - 55)%nat
  else if ((97 <=? n) && (n <=? 102))%nat then Some (n - 87)%nat
  else None.

(** Percent-decoding as the receiving side does it: [+] is a space, [%XX]
    is the byte [XX], a [%] that is not followed by two hexadecimal digits
    stands for itself. *)
Fixpoint decode (s : string) : string :=
  match s with
  | EmptyString => EmptyString
  | String c r =>
      if Ascii.eqb c "+" then String " " (decode r)
      else if Ascii.eqb c "%" then
        match r with
        | String h (String l r') =>
            match hexValue h, hexValue l with
            | Some a, Some b => String (ascii_of_nat (16 * a + b)) (decode r')
            | _, _ => String c (decode r)
            end
        | _ => String c (decode r)
        end
      else String c (decode r)
  end.

(** The pieces of [s] between occurrences of [sep]. *)
Fixpoint splitOn (sep : ascii) (s : string) : list string :=
  match s with
  | EmptyString => [EmptyString]
  | String c r =>
      if Ascii.eqb c sep then EmptyString :: splitOn sep r
      else
        match splitOn sep r with
        | [] => [String c EmptyString]
        | x :: xs => String c x :: xs
        end
  end.

(** [s] cut at its first [c]; without one, the second half is empty. *)
Fixpoint cutAt (c : ascii) (s : string) : string * string :=
  match s with
  | EmptyString => (EmptyString, EmptyString)
  | String a r =>
      if Ascii.eqb a c then (EmptyString, r)
      else let (x, y) := cutAt c r in (String a x, y)
  end.

Definition nonEmpty (s : string) : bool :=
  match s with EmptyString => false | _ => true end.

Definition decodeField (seg : string) : string * string :=
  let (k, v) := cutAt "=" seg in (decode k, decode v).

(** The (name, value) fields of a query string, in order. *)
Definition parse (q : string) : list (string * string) :=
  map decodeField (filter nonEmpty (splitOn "&" q)).

Fixpoint firstValue (name : string) (fs : list (string * string))
  : option string :=
  match fs with
  | [] => None
  | (k, v) :: rest => if (k =? name) then Some v else firstValue name rest
  end.

(** The value transmitted for the parameter [name], if there is one. *)
Definition param (name : string) (q : option string) : option string :=
  match q with
  | None => None
  | Some q => firstValue name (parse q)
  end.

(** [sub] occurs in [s]. *)
Definition contains (sub s : string) : Prop :=
  exists pre post, s = pre ++ sub ++ post.

End QueryReader.

(** ** A reader for JSON texts

    An instance for the [JSON_parse] the transport handlers are stated over:
    the grammar of ECMA-404, numbers kept as their lexeme, [\u] escapes
    written out in UTF-8 one code unit at a time. *)

Module JSON.

Inductive json : Type :=
| JNull
| JBool (b : bool)
| JNumber (lexeme : string)
| JString (s : string)
| JArray (elems : list json)
| JObject (members : list (string * json)).

Definition isWs (c : ascii) : bool :=
  existsb (Nat.eqb (nat_of_ascii c)) [32; 9; 10; 13]%nat.

Fixpoint skipWs (s : string) : string :=
  match s with
  | String c r => if isWs c then skipWs r else s
  | EmptyString => s
  end.

Definition isDigit (c : ascii) : bool :=
  let n := nat_of_ascii c in ((48 <=? n) && (n <=? 57))%nat.

Fixpoint digits (s : string) : string * string :=
  match s with
  | String c r =>
      if isDigit c then let (d, r') := digits r in (String c d, r')
      else (EmptyString, s)
  | EmptyString => (EmptyString, s)
  end.

Definition digits1 (s : string) : option (string * string) :=
  match digits s with
  | (EmptyString, _) => None
  | dr => Some dr
  end.

Definition intPart (s : string) : option (string * string) :=
  match s with
  | String c r =>
      if Ascii.eqb c "0" then Some ("0", r)
      else digits1 s
  | EmptyString => None
  end.

Definition fracPart (s : string) : option (string * string) :=
  match s with
  | String c r =>
      if Ascii.eqb c "." then
        match digits1 r with
        | Some (d, r') => Some (String c d, r')
        | None => None
        end
      else Some (EmptyString, s)
  | EmptyString => Some (EmptyString, s)
  end.

Definition expPart (s : string) : option (string * string) :=
  match s with
  | String c r =>
      if Ascii.eqb c "e" || Ascii.eqb c "E" then
        let (sign, r1) :=
          match r with
          | String g r' =>
              if Ascii.eqb g "+" || Ascii.eqb g "-"
              then (String g EmptyString, r') else (EmptyString, r)
          | EmptyString => (EmptyString, r)
          end in
        match digits1 r1 with
        | Some (d, r2) => Some (String c (sign ++ d), r2)
        | None => None
        end
      else Some (EmptyString, s)
  | EmptyString => Some (EmptyString, s)
  end.

Definition number (s : string) : option (string * string) :=
  let (sign, s1) :=
    match s with
    | String c r => if Ascii.eqb c "-" then ("-", r) else (EmptyString, s)
    | EmptyString => (EmptyString, s)
    end in
  match intPart s1 with
  | Some (i, s2) =>
      match fracPart s2 with
      | Some (f, s3) =>
          match expPart s3 with
          | Some (e, s4) => Some (sign ++ i ++ f ++ e, s4)
          | None => None
          end
      | None => None
      end
  | None => None
  end.

Definition utf8 (n : nat) : string :=
  let b k := String (ascii_of_nat k) EmptyString in
  if (n <? 128)%nat then b n
  else if (n <? 2048)%nat then b (192 + n / 64)%nat ++ b (128 + n mod 64)%nat
  else b (224 + n / 4096)%nat ++ b (128 + (n / 64) mod 64)%nat
       ++ b (128 + n mod 64)%nat.

Definition escapeOf (c : ascii) : option string :=
  let n := nat_of_ascii c in
  let b k := Some (String (ascii_of_nat k) EmptyString) in
  if (n =? 34)%nat then b 34%nat        (* quotation mark *)
  else if (n =? 92)%nat then b 92%nat   (* reverse solidus *)
  else if (n =? 47)%nat then b 47%nat   (* solidus *)
  else if (n =? 98)%nat then b 8%nat
  else if (n =? 102)%nat then b 12%nat
  else if (n =? 110)%nat then b 10%nat
  else if (n =? 114)%nat then b 13%nat
  else if (n =? 116)%nat then b 9%nat
  else None.

(** The characters of a string up to its closing quotation mark. *)
Fixpoint chars (s : string) : option (string * string) :=
  match s with
  | EmptyString => None
  | String c r =>
      if (nat_of_ascii c =? 34)%nat then Some (EmptyString, r)
      else if (nat_of_ascii c =? 92)%nat then
        match r with
        | String e r1 =>
            if Ascii.eqb e "u" then
              match r1 with
              | String h1 (String h2 (String h3 (String h4 r2))) =>
                  match QueryReader.hexValue h1, QueryReader.hexValue h2,
                        QueryReader.hexValue h3, QueryReader.hexValue h4 with
                  | Some a, Some b, Some c', Some d =>
                      match chars r2 with
                      | Some (t, r3) =>
                          Some (utf8 (4096 * a + 256 * b + 16 * c' + d) ++ t, r3)
                      | None => None
                      end
                  | _, _, _, _ => None
                  end
              | _ => None
              end
            else
              match escapeOf e, chars r1 with
              | Some x, Some (t, r2) => Some (x ++ t, r2)
              | _, _ => None
              end
        | EmptyString => None
        end
      else if (nat_of_ascii c <? 32)%nat then None
      else
        match chars r with
        | Some (t, r1) => Some (String c t, r1)
        | None => None
        end
  end.

Definition literal (word : string) (j : json) (s : string)
  : option (json * string) :=
  if String.prefix word s
  then Some (j, substring (String.length word)
                          (String.length s - String.length word) s)
  else None.

Fixpoint value (fuel : nat) (s : string) : option (json * string) :=
  match fuel with
  | O => None
  | S f =>
      match skipWs s with
      | EmptyString => None
      | String c r =>
          if Ascii.eqb c "{" then
            match skipWs r with
            | String c' r' =>
                if Ascii.eqb c' "}" then Some (JObject [], r')
                else members f r []
            | EmptyString => None
            end
          else if Ascii.eqb c "[" then
            match skipWs r with
            | String c' r' =>
                if Ascii.eqb c' "]" then Some (JArray [], r')
                else elements f r []
            | EmptyString => None
            end
          else if (nat_of_ascii c =? 34)%nat then
            match chars r with
            | Some (t, r') => Some (JString t, r')
            | None => None
            end
          else if Ascii.eqb c "t" then literal "true" (JBool true) (String c r)
          else if Ascii.eqb c "f" then literal "false" (JBool false) (String c r)
          else if Ascii.eqb c "n" then literal "null" JNull (String c r)
          else
            match number (String c r) with
            | Some (n, r') => Some (JNumber n, r')
            | None => None
            end
      end
  end
with elements (fuel : nat) (s : string) (acc : list json)
  : option (json * string) :=
  match fuel with
  | O => None
  | S f =>
      match value f s with
      | Some (v, r) =>
          match skipWs r with
          | String c r' =>
              if Ascii.eqb c "," then elements f r' (v :: acc)
              else if Ascii.eqb c "]" then Some (JArray (rev (v :: acc)), r')
              else None
          | EmptyString => None
          end
      | None => None
      end
  end
with members (fuel : nat) (s : string) (acc : list (string * json))
  : option (json * string) :=
  match fuel with
  | O => None
  | S f =>
      match skipWs s with
      | String q r =>
          if (nat_of_ascii q =? 34)%nat then
            match chars r with
            | Some (k, r1) =>
                match skipWs r1 with
                | String colon r2 =>
                    if Ascii.eqb colon ":" then
                      match value f r2 with
                      | Some (v, r3) =>
                          match skipWs r3 with
                          | String c r4 =>
                              if Ascii.eqb c "," then members f r4 ((k, v) :: acc)
                              else if Ascii.eqb c "}"
                              then Some (JObject (rev ((k, v) :: acc)), r4)
                              else None
                          | EmptyString => None
                          end
                      | None => None
                      end
                    else None
                | EmptyString => None
                end
            | None => None
            end
          else None
      | EmptyString => None
      end
  end.

(** [JSON.parse(text)]: one value, white space around it, nothing else. *)
Definition parse (text : string) : Error + json :=
  match value (2 * String.length text + 2) text with
  | Some (j, rest) =>
      match skipWs rest with
      | EmptyString => inr j
      | _ => inl (SyntaxError "Unexpected non-whitespace character after JSON")
      end
  | None => inl (SyntaxError "Unexpected token in JSON")
  end.

End JSON.

(** * Properties *)

Import Utils CoinGecko QueryReader Transport.

(** ** Vocabulary of the statements *)

(** The warning an endpoint emits for a bad required identifier. *)
Definition invalidParameter (name : string) : Warning :=
  mkWarning "Invalid parameter"
    (name ++ " must be of type: String and greater than 0 characters.").

(** The call [m] goes through: it returns, having reached the request
    routine with [endpointPath], so that the options for [https.request]
    carry that path under the version prefix (followed by the query, if
    any), and every identifier in [checked] that is not a non-empty string
    has its warning in the log. *)
Definition proceeds (m : M RequestOptions) (endpointPath : string)
    (checked : list (string * value)) : Prop :=
  exists w opts suffix,
    run m = (w, Returned opts)
    /\ path opts = "/api/v" ++ API_VERSION ++ endpointPath ++ suffix
    /\ forall name x, In (name, x) checked ->
                      notNonEmptyString x = true ->
                      In (invalidParameter name) w.

(** The call [m] goes through and transmits [value] for the parameter
    [field] in the query that follows [endpointPath]. *)
Definition transmits (m : M RequestOptions) (endpointPath field value : string)
  : Prop :=
  exists w opts q,
    run m = (w, Returned opts)
    /\ path opts = "/api/v" ++ API_VERSION ++ endpointPath ++ "?" ++ q
    /\ param field (Some q) = Some value.

(** The caller's own mapping carries the property [k]. *)
Definition hasOwn (k : string) (params : value) : bool :=
  match params with
  | VObj o => match lookup k o with Some _ => true | None => false end
  | _ => false
  end.

(** Every envelope the promise of [r] is fulfilled with was built by
    [returnObject] from the response [res]. *)
Definition fulfilledFromResponse {JSONValue : Type} (res : Response)
    (r : Request JSONValue) : Prop :=
  forall env, promise r = Fulfilled env ->
              exists b, env = returnObject JSONValue res b.

(** The parameter mapping of a call: an object, or left out. *)
Definition objectOrOmitted (params : value) : Prop :=
  params = VUndefined \/ isObject params = true.

(** Whatever [m] returns was built by [_buildRequestOptions] for a path
    that starts with a slash. *)
Definition viaRequest (this : this_t) (m : M RequestOptions) : Prop :=
  forall w0 w opts,
    m w0 = (w, Returned opts) ->
    exists p params, opts = _buildRequestOptions this (String "/" p) params.

(** Whatever [m] throws is a [TypeError]. *)
Definition throwsOnlyTypeError {A : Type} (m : M A) : Prop :=
  forall w0 w err, m w0 = (w, Threw err) -> exists msg, err = TypeError msg.

(** The call [m] goes through and, for the parameter [k], transmits what
    serialising the caller's mapping [o] alone would. *)
Definition passesOn (m : M RequestOptions) (endpointPath k : string)
    (o : list (string * value)) : Prop :=
  exists w opts q,
    run m = (w, Returned opts)
    /\ path opts = "/api/v" ++ API_VERSION ++ endpointPath ++ "?" ++ q
    /\ param k (Some q) = firstValue k (querystring.fields o).

(** The mapping the currency default leaves: [f] is ["usd"] unless it was a
    non-empty string. *)
Definition withUsd (f : string) (o : list (string * value))
  : list (string * value) :=
  if notNonEmptyString (get f o) then assign f (VStr "usd") o else o.

(** The mapping the joining of [f] leaves. *)
Definition withJoined (f : string) (o : list (string * value))
  : list (string * value) :=
  match get f o with
  | VArr l => assign f (VStr (join "," l)) o
  | _ => o
  end.

(** The mapping the day default leaves: [days] is 1 unless it was given. *)
Definition withDays (o : list (string * value)) : list (string * value) :=
  if looseEqUndefined (get "days" o) then assign "days" (VNum 1) o else o.

(** The currency an endpoint sends for the value [v] the caller gave: [v]
    itself when it is a string that is not blank, ["usd"] otherwise. *)
Definition currencySent (v : value) : string :=
  match v with
  | VStr s => if allWhite s then "usd" else s
  | _ => "usd"
  end.

(** The mapping the key insertion leaves. *)
Definition withKey (this : this_t) (o : list (string * value))
  : list (string * value) :=
  if _shouldCallPro this
  then assign "x_cg_pro_api_key" (_apiKey this) o else o.

(** Every envelope the promise of [r] is fulfilled with holds a value that
    [JSON_parse] returned for some text. *)
Definition fulfilledWithParsed {JSONValue : Type}
    (JSON_parse : string -> Error + JSONValue) (r : Request JSONValue)
  : Prop :=
  forall env, promise r = Fulfilled env ->
              exists text json,
                JSON_parse text = inr json /\ data env = inl json.

(** ** Objects *)

Lemma lookup_assign_same (k : string) (v : value) (o : list (string * value)) :
  lookup k (assign k v o) = Some v.
Proof.
  induction o as [|[k' v'] o IH]; simpl.
  - now rewrite String.eqb_refl.
  - destruct (k' =? k) eqn:E; simpl.
    + now rewrite String.eqb_refl.
    + now rewrite E.
Qed.

Lemma lookup_assign_other (k k' : string) (v : value) (o : list (string * value)) :
  (k =? k') = false -> lookup k' (assign k v o) = lookup k' o.
Proof.
  intros Hk.
  induction o as [|[k0 v0] o IH]; simpl.
  - now rewrite Hk.
  - destruct (k0 =? k) eqn:E; simpl.
    + apply String.eqb_eq in E; subst k0. now rewrite Hk.
    + now rewrite IH.
Qed.

(** ** Percent-encoding and its inverse *)

Lemma escapeChar_shape (c : ascii) :
  (querystring.unreserved c = true
   /\ querystring.escapeChar c = String c EmptyString)
  \/ (exists h l,
        querystring.escapeChar c = String "%" (String h (String l EmptyString))
        /\ hexValue h = Some (nat_of_ascii c / 16)%nat
        /\ hexValue l = Some (nat_of_ascii c mod 16)%nat).
Proof.
  destruct c as [[] [] [] [] [] [] [] []];
    first [ left; split; reflexivity
          | right; eexists; eexists; split; [reflexivity | split; reflexivity] ].
Qed.

Lemma unreserved_not_special (c : ascii) :
  querystring.unreserved c = true ->
  Ascii.eqb c "+" = false /\ Ascii.eqb c "%" = false
  /\ Ascii.eqb c "&" = false /\ Ascii.eqb c "=" = false.
Proof.
  destruct c as [[] [] [] [] [] [] [] []]; cbv; intros H;
    first [ discriminate H | repeat split ].
Qed.

Lemma decode_escapeChar (c : ascii) (rest : string) :
  decode (querystring.escapeChar c ++ rest) = String c (decode rest).
Proof.
  destruct (escapeChar_shape c) as [[Hu E] | (h & l & E & Hh & Hl)]; rewrite E.
  - destruct (unreserved_not_special c Hu) as (Hp & Hq & _).
    simpl. now rewrite Hp, Hq.
  - cbn [append decode]. rewrite Hh, Hl.
    change (Ascii.eqb "%" "+") with false.
    change (Ascii.eqb "%" "%") with true. cbn iota.
    rewrite <- (Nat.div_mod_eq (nat_of_ascii c) 16).
    now rewrite ascii_nat_embedding.
Qed.

Lemma decode_escape (s : string) : decode (querystring.escape s) = s.
Proof.
  induction s as [|c s IH]; simpl.
  - reflexivity.
  - now rewrite decode_escapeChar, IH.
Qed.

Lemma occurs_String (x c : ascii) (s : string) :
  occurs x (String c s) = Ascii.eqb x c || occurs x s.
Proof. reflexivity. Qed.

Lemma occurs_app (x : ascii) (s t : string) :
  occurs x (s ++ t) = occurs x s || occurs x t.
Proof.
  induction s as [|c s IH]; simpl.
  - reflexivity.
  - rewrite !occurs_String, IH. now rewrite orb_assoc.
Qed.

Lemma occurs_escapeChar (c : ascii) :
  occurs "&" (querystring.escapeChar c) = false
  /\ occurs "=" (querystring.escapeChar c) = false.
Proof.
  destruct c as [[] [] [] [] [] [] [] []]; split; reflexivity.
Qed.

Lemma occurs_escape (s : string) :
  occurs "&" (querystring.escape s) = false
  /\ occurs "=" (querystring.escape s) = false.
Proof.
  induction s as [|c s [IH1 IH2]]; simpl.
  - split; reflexivity.
  - destruct (occurs_escapeChar c) as [H1 H2].
    rewrite !occurs_app, H1, H2, IH1, IH2. split; reflexivity.
Qed.

(** ** Splitting *)

Lemma splitOn_single (sep : ascii) (s : string) :
  occurs sep s = false -> splitOn sep s = [s].
Proof.
  induction s as [|c s IH]; simpl; intros H.
  - reflexivity.
  - rewrite occurs_String in H. apply orb_false_iff in H as [Hc Hs].
    rewrite Ascii.eqb_sym, Hc. now rewrite IH.
Qed.

Lemma splitOn_app (sep : ascii) (s t : string) :
  occurs sep s = false ->
  splitOn sep (s ++ String sep t) = s :: splitOn sep t.
Proof.
  induction s as [|c s IH]; simpl; intros H.
  - now rewrite Ascii.eqb_refl.
  - rewrite occurs_String in H. apply orb_false_iff in H as [Hc Hs].
    rewrite Ascii.eqb_sym, Hc. now rewrite IH.
Qed.

Lemma splitOn_concat (sep : ascii) (segs : list string) :
  segs <> [] ->
  Forall (fun seg => occurs sep seg = false) segs ->
  splitOn sep (String.concat (String sep EmptyString) segs) = segs.
Proof.
  induction segs as [|a segs IH]; intros Hne Hall.
  - contradiction.
  - inversion Hall as [|? ? Ha Hrest]; subst.
    destruct segs as [|b segs].
    + simpl. now apply splitOn_single.
    + change (String.concat (String sep EmptyString) (a :: b :: segs))
        with (a ++ String sep (String.concat (String sep EmptyString) (b :: segs))).
      rewrite splitOn_app by assumption.
      f_equal. apply IH; [discriminate | assumption].
Qed.

Lemma cutAt_app (c : ascii) (s t : string) :
  occurs c s = false -> cutAt c (s ++ String c t) = (s, t).
Proof.
  induction s as [|a s IH]; simpl; intros H.
  - now rewrite Ascii.eqb_refl.
  - rewrite occurs_String in H. apply orb_false_iff in H as [Hc Hs].
    rewrite Ascii.eqb_sym, Hc. now rewrite IH.
Qed.

(** ** [parse] reads back what [stringify] wrote *)

Lemma decodeField_encodeField (f : string * string) :
  decodeField (querystring.encodeField f) = f.
Proof.
  destruct f as [k v]. unfold decodeField, querystring.encodeField. simpl fst; simpl snd.
  change (querystring.escape k ++ "=" ++ querystring.escape v)
    with (querystring.escape k ++ String "=" (querystring.escape v)).
  rewrite cutAt_app by apply occurs_escape.
  now rewrite !decode_escape.
Qed.

Lemma encodeField_no_amp (f : string * string) :
  occurs "&" (querystring.encodeField f) = false.
Proof.
  unfold querystring.encodeField.
  rewrite !occurs_app.
  destruct (occurs_escape (fst f)) as [-> _].
  destruct (occurs_escape (snd f)) as [-> _].
  reflexivity.
Qed.

Lemma encodeField_nonEmpty (f : string * string) :
  nonEmpty (querystring.encodeField f) = true.
Proof.
  unfold querystring.encodeField.
  destruct (querystring.escape (fst f)); reflexivity.
Qed.

Lemma filter_nonEmpty_encoded (fs : list (string * string)) :
  filter nonEmpty (map querystring.encodeField fs)
  = map querystring.encodeField fs.
Proof.
  induction fs as [|f fs IH]; simpl.
  - reflexivity.
  - now rewrite encodeField_nonEmpty, IH.
Qed.

Lemma parse_stringify (o : list (string * value)) :
  parse (querystring.stringify (VObj o)) = querystring.fields o.
Proof.
  unfold parse, querystring.stringify.
  destruct (querystring.fields o) as [|f fs] eqn:E.
  - reflexivity.
  - rewrite splitOn_concat.
    + rewrite filter_nonEmpty_encoded, map_map.
      rewrite <- (map_id (f :: fs)) at 2.
      apply map_ext. intros a. apply decodeField_encodeField.
    + discriminate.
    + apply Forall_forall. intros seg Hin.
      apply in_map_iff in Hin as (g & <- & _). apply encodeField_no_amp.
Qed.

Lemma firstValue_app_miss (k : string) (fs gs : list (string * string)) :
  Forall (fun f => (fst f =? k) = false) fs ->
  firstValue k (fs ++ gs) = firstValue k gs.
Proof.
  induction 1 as [|[k' v'] fs Hk _ IH]; simpl.
  - reflexivity.
  - simpl in Hk. now rewrite Hk.
Qed.

Lemma fieldsOf_keys (k k' : string) (v : value) :
  (k' =? k) = false ->
  Forall (fun f => (fst f =? k) = false) (querystring.fieldsOf (k', v)).
Proof.
  intros Hk. apply Forall_forall. intros [a b] Hin. simpl.
  destruct v; simpl in Hin;
    try (destruct Hin as [Hin | []]; inversion Hin; subst; exact Hk).
  apply in_map_iff in Hin as (e & He & _). inversion He; subst. exact Hk.
Qed.

(** A scalar property is transmitted as its printed value. *)
Lemma firstValue_fields_scalar (k : string) (v : value) (o : list (string * value)) :
  lookup k o = Some v -> isArray v = false ->
  firstValue k (querystring.fields o) = Some (querystring.stringifyPrimitive v).
Proof.
  intros Hl Hv.
  induction o as [|[k' v'] o IH]; simpl in Hl.
  - discriminate.
  - unfold querystring.fields. simpl flat_map.
    destruct (k' =? k) eqn:E.
    + inversion Hl; subst v'. apply String.eqb_eq in E; subst k'.
      destruct v; try discriminate Hv; simpl; now rewrite String.eqb_refl.
    + rewrite firstValue_app_miss by now apply fieldsOf_keys.
      now apply IH.
Qed.

(** A property the object lacks is not transmitted. *)
Lemma firstValue_fields_none (k : string) (o : list (string * value)) :
  lookup k o = None -> firstValue k (querystring.fields o) = None.
Proof.
  intros Hl.
  induction o as [|[k' v'] o IH]; simpl in Hl.
  - reflexivity.
  - unfold querystring.fields. simpl flat_map.
    destruct (k' =? k) eqn:E; [discriminate|].
    rewrite firstValue_app_miss by now apply fieldsOf_keys.
    now apply IH.
Qed.

(** ** The repeated blocks, on an object *)

Lemma mustBeString_run (name : string) (x : value) (w : list Warning) :
  mustBeString name x w
  = ((w ++ if notNonEmptyString x then [invalidParameter name] else [])%list,
     Returned tt).
Proof.
  unfold mustBeString, when.
  destruct (notNonEmptyString x).
  - reflexivity.
  - unfold ret. now rewrite app_nil_r.
Qed.

Lemma mustBeObject_obj (o : list (string * value)) (w : list Warning) :
  mustBeObject (VObj o) w = (w, Returned tt).
Proof. reflexivity. Qed.

Lemma defaultUsd_obj (f : string) (o : list (string * value)) (w : list Warning) :
  defaultUsd f (VObj o) w
  = (w, Returned (VObj (if notNonEmptyString (get f o)
                        then assign f (VStr "usd") o else o))).
Proof.
  unfold defaultUsd, bind. simpl.
  now destruct (notNonEmptyString (get f o)).
Qed.

Lemma defaultDays_obj (o : list (string * value)) (w : list Warning) :
  defaultDays (VObj o) w
  = (w, Returned (VObj (if looseEqUndefined (get "days" o)
                        then assign "days" (VNum 1) o else o))).
Proof.
  unfold defaultDays, bind. simpl.
  now destruct (looseEqUndefined (get "days" o)).
Qed.

Lemma joinArray_obj (f : string) (o : list (string * value)) (w : list Warning) :
  joinArray f (VObj o) w
  = (w, Returned (VObj (match get f o with
                        | VArr l => assign f (VStr (join "," l)) o
                        | _ => o
                        end))).
Proof.
  unfold joinArray, bind. simpl.
  now destruct (get f o).
Qed.

Lemma mustHaveTimestamp_obj (f : string) (o : list (string * value))
    (w : list Warning) :
  exists extra, mustHaveTimestamp f (VObj o) w = ((w ++ extra)%list, Returned tt).
Proof.
  unfold mustHaveTimestamp, bind, when. simpl.
  destruct (negb (isNumber (get f o))).
  - eexists. reflexivity.
  - exists []. unfold ret. now rewrite app_nil_r.
Qed.

Lemma mustHave_obj (f : string) (o : list (string * value)) (w : list Warning) :
  exists extra, mustHave f (VObj o) w = ((w ++ extra)%list, Returned tt).
Proof.
  unfold mustHave, bind, when. simpl.
  destruct (negb (truthy (get f o))).
  - eexists. reflexivity.
  - exists []. unfold ret. now rewrite app_nil_r.
Qed.

(** ** Endpoints with a required identifier *)

Lemma default_params (params : value) :
  objectOrOmitted params -> exists o, default params (VObj []) = VObj o.
Proof.
  intros [-> | H].
  - now exists [].
  - destruct params; try discriminate H. now eexists.
Qed.

Lemma build_path_query (this : this_t) (p : string) (o : list (string * value)) :
  exists q, path (_buildRequestOptions this p (VObj o))
            = "/api/v" ++ API_VERSION ++ p ++ "?" ++ q.
Proof.
  unfold _buildRequestOptions, queryString, _insertApiKeyIntoParams. simpl.
  destruct (_shouldCallPro this); simpl; eexists; reflexivity.
Qed.

Lemma build_path_absent (this : this_t) (p : string) :
  path (_buildRequestOptions this p VUndefined) = "/api/v" ++ API_VERSION ++ p.
Proof. reflexivity. Qed.

Lemma when_WARN_run (c : bool) (t d : string) (w : list Warning) :
  when c (_WARN_ t d) w
  = ((w ++ if c then [mkWarning t d] else [])%list, Returned tt).
Proof.
  unfold when. destruct c.
  - reflexivity.
  - unfold ret. now rewrite app_nil_r.
Qed.

Lemma append_empty_r (s : string) : s ++ EmptyString = s.
Proof. induction s as [|c s IH]; simpl; [reflexivity | now rewrite IH]. Qed.

(** Runs the blocks of an endpoint body one after the other. *)
Ltac run_blocks :=
  repeat first
    [ rewrite mustBeString_run
    | rewrite mustBeObject_obj
    | rewrite defaultUsd_obj
    | rewrite defaultDays_obj
    | rewrite joinArray_obj
    | rewrite when_WARN_run
    | match goal with
      | |- context [mustHaveTimestamp ?f (VObj ?o) ?w] =>
          let extra := fresh "extra" in
          destruct (mustHaveTimestamp_obj f o w) as [extra ->]
      | |- context [mustHave ?f (VObj ?o) ?w] =>
          let extra := fresh "extra" in
          destruct (mustHave_obj f o w) as [extra ->]
      end
    | progress cbv beta iota
    | progress cbn [lift getProp ret] ].

(** The log holds the warning of each bad identifier. *)
Ltac in_log :=
  let name := fresh "name" in
  let x := fresh "x" in
  let Hin := fresh "Hin" in
  let Hx := fresh "Hx" in
  intros name x Hin Hx; simpl in Hin;
  repeat match goal with
         | H : _ \/ _ |- _ => destruct H
         | H : False |- _ => destruct H
         | H : (_, _) = (_, _) |- _ => inversion H; subst; clear H
         end;
  rewrite Hx; rewrite ?in_app_iff; simpl; auto 10.

(** An endpoint that hands a parameter object to [_request]. *)
Ltac with_query this o :=
  unfold bind, _request; run_blocks;
  match goal with
  | |- context [_buildRequestOptions this ?p (VObj ?o')] =>
      let q := fresh "q" in
      let Hq := fresh "Hq" in
      destruct (build_path_query this p o') as [q Hq];
      eexists; eexists; exists ("?" ++ q);
      split; [reflexivity | split; [exact Hq | in_log]]
  end.

(** An endpoint that hands no parameters to [_request]. *)
Ltac without_query :=
  unfold bind, _request; run_blocks;
  eexists; eexists; exists EmptyString;
  split; [reflexivity
         | split; [rewrite build_path_absent; now rewrite ?append_empty_r
                  | in_log]].

Section IdentifierEndpoints.

Variable this : this_t.
Variable params : value.
Hypothesis Hparams : objectOrOmitted params.

Lemma coins_fetch_proceeds coinId :
  proceeds (coins.fetch this coinId params)
    ("/coins/" ++ ToString coinId) [("coinId", coinId)].
Proof.
  destruct (default_params params Hparams) as [o Ho].
  unfold proceeds, coins.fetch, run. rewrite Ho. with_query this o.
Qed.

Lemma coins_fetchTickers_proceeds coinId :
  proceeds (coins.fetchTickers this coinId params)
    ("/coins/" ++ ToString coinId ++ "/tickers") [("coinId", coinId)].
Proof.
  destruct (default_params params Hparams) as [o Ho].
  unfold proceeds, coins.fetchTickers, run. rewrite Ho. with_query this o.
Qed.

Lemma coins_fetchHistory_proceeds coinId :
  proceeds (coins.fetchHistory this coinId params)
    ("/coins/" ++ ToString coinId ++ "/history") [("coinId", coinId)].
Proof.
  destruct (default_params params Hparams) as [o Ho].
  unfold proceeds, coins.fetchHistory, run. rewrite Ho. with_query this o.
Qed.

Lemma coins_fetchMarketChart_proceeds coinId :
  proceeds (coins.fetchMarketChart this coinId params)
    ("/coins/" ++ ToString coinId ++ "/market_chart") [("coinId", coinId)].
Proof.
  destruct (default_params params Hparams) as [o Ho].
  unfold proceeds, coins.fetchMarketChart, run. rewrite Ho. with_query this o.
Qed.

Lemma coins_fetchMarketChartRange_proceeds coinId :
  proceeds (coins.fetchMarketChartRange this coinId params)
    ("/coins/" ++ ToString coinId ++ "/market_chart/range")
    [("coinId", coinId)].
Proof.
  destruct (default_params params Hparams) as [o Ho].
  unfold proceeds, coins.fetchMarketChartRange, run. rewrite Ho.
  with_query this o.
Qed.

Lemma coins_fetchCoinContractInfo_proceeds contractAddress assetPlatform :
  proceeds (coins.fetchCoinContractInfo this contractAddress assetPlatform)
    ("/coins/" ++ ToString (default assetPlatform (VStr "ethereum"))
     ++ "/contract/" ++ ToString contractAddress)
    [("contractAddress", contractAddress);
     ("assetPlatform", default assetPlatform (VStr "ethereum"))].
Proof.
  unfold proceeds, coins.fetchCoinContractInfo, run. without_query.
Qed.

Lemma coins_fetchCoinContractMarketChart_proceeds contractAddress assetPlatform :
  proceeds
    (coins.fetchCoinContractMarketChart this contractAddress assetPlatform params)
    ("/coins/" ++ ToString (default assetPlatform (VStr "ethereum"))
     ++ "/contract/" ++ ToString contractAddress ++ "/market_chart")
    [("contractAddress", contractAddress);
     ("assetPlatform", default assetPlatform (VStr "ethereum"))].
Proof.
  destruct (default_params params Hparams) as [o Ho].
  unfold proceeds, coins.fetchCoinContractMarketChart, run. rewrite Ho.
  with_query this o.
Qed.

Lemma coins_fetchCoinContractMarketChartRange_proceeds
    contractAddress assetPlatform :
  proceeds
    (coins.fetchCoinContractMarketChartRange this contractAddress
       assetPlatform params)
    ("/coins/" ++ ToString (default assetPlatform (VStr "ethereum"))
     ++ "/contract/" ++ ToString contractAddress ++ "/market_chart/range")
    [("contractAddress", contractAddress);
     ("assetPlatform", default assetPlatform (VStr "ethereum"))].
Proof.
  destruct (default_params params Hparams) as [o Ho].
  unfold proceeds, coins.fetchCoinContractMarketChartRange, run. rewrite Ho.
  with_query this o.
Qed.

Lemma exchanges_fetch_proceeds exchangeId :
  proceeds (exchanges.fetch this exchangeId)
    ("/exchanges/" ++ ToString exchangeId) [("exchangeId", exchangeId)].
Proof.
  unfold proceeds, exchanges.fetch, run. without_query.
Qed.

Lemma exchanges_fetchTickers_proceeds exchangeId :
  proceeds (exchanges.fetchTickers this exchangeId params)
    ("/exchanges/" ++ ToString exchangeId ++ "/tickers")
    [("exchangeId", exchangeId)].
Proof.
  destruct (default_params params Hparams) as [o Ho].
  unfold proceeds, exchanges.fetchTickers, run. rewrite Ho. with_query this o.
Qed.

Lemma exchanges_fetchVolumeChart_proceeds exchangeId :
  proceeds (exchanges.fetchVolumeChart this exchangeId params)
    ("/exchanges/" ++ ToString exchangeId ++ "/volume_chart")
    [("exchangeId", exchangeId)].
Proof.
  destruct (default_params params Hparams) as [o Ho].
  unfold proceeds, exchanges.fetchVolumeChart, run. rewrite Ho.
  with_query this o.
Qed.

Lemma simple_fetchTokenPrice_proceeds assetPlatform :
  proceeds (simple.fetchTokenPrice this params assetPlatform)
    ("/simple/token_price/" ++ ToString (default assetPlatform (VStr "ethereum")))
    [("assetPlatform", default assetPlatform (VStr "ethereum"))].
Proof.
  destruct (default_params params Hparams) as [o Ho].
  unfold proceeds, simple.fetchTokenPrice, run. rewrite Ho. with_query this o.
Qed.

Lemma indexes_fetch_proceeds marketId indexId :
  proceeds (indexes.fetch this marketId indexId)
    ("/indexes/" ++ ToString marketId ++ "/" ++ ToString indexId)
    [("marketId", marketId); ("indexId", indexId)].
Proof.
  unfold proceeds, indexes.fetch, run. without_query.
Qed.

Lemma derivatives_fetchExchange_proceeds exchangeId :
  proceeds (derivatives.fetchExchange this exchangeId params)
    ("/derivatives/exchanges/" ++ ToString exchangeId)
    [("exchangeId", exchangeId)].
Proof.
  destruct (default_params params Hparams) as [o Ho].
  unfold proceeds, derivatives.fetchExchange, run. rewrite Ho.
  with_query this o.
Qed.

End IdentifierEndpoints.




(** ** Host and key *)

Lemma queryString_obj (this : this_t) (o : list (string * value)) :
  queryString this (VObj o)
  = Some (querystring.stringify
            (VObj (if _shouldCallPro this
                   then assign "x_cg_pro_api_key" (_apiKey this) o else o))).
Proof.
  unfold queryString, _insertApiKeyIntoParams. simpl.
  now destruct (_shouldCallPro this).
Qed.

Lemma queryString_absent (this : this_t) (params : value) :
  isObject params = false -> queryString this params = None.
Proof.
  intros H. unfold queryString, _insertApiKeyIntoParams. rewrite H. simpl.
  now rewrite H.
Qed.

Lemma get_lookup (k : string) (o : list (string * value)) (s : string) :
  get k o = VStr s -> lookup k o = Some (VStr s).
Proof. unfold get. destruct (lookup k o); [now intros -> | discriminate]. Qed.

Lemma get_assign_same (k : string) (v : value) (o : list (string * value)) :
  get k (assign k v o) = v.
Proof. unfold get. now rewrite lookup_assign_same. Qed.

Lemma get_assign_other (k k' : string) (v : value) (o : list (string * value)) :
  (k =? k') = false -> get k' (assign k v o) = get k' o.
Proof. intros H. unfold get. now rewrite lookup_assign_other. Qed.

(** A scalar property of the mapping handed to [_request] is transmitted
    under its own name, whatever the key. *)
Lemma param_queryString_scalar (this : this_t) (o : list (string * value))
    (k : string) (v : value) :
  ("x_cg_pro_api_key" =? k) = false ->
  lookup k o = Some v -> isArray v = false ->
  param k (queryString this (VObj o)) = Some (querystring.stringifyPrimitive v).
Proof.
  intros Hk Hl Hv. rewrite queryString_obj. unfold param.
  rewrite parse_stringify. apply firstValue_fields_scalar; [|exact Hv].
  destruct (_shouldCallPro this); [|exact Hl].
  now rewrite lookup_assign_other.
Qed.

(** With a key, a parameter object gets the key. *)
Lemma param_queryString_key (this : this_t) (o : list (string * value)) :
  _shouldCallPro this = true -> isArray (_apiKey this) = false ->
  param "x_cg_pro_api_key" (queryString this (VObj o))
  = Some (querystring.stringifyPrimitive (_apiKey this)).
Proof.
  intros Hpro Hv. rewrite queryString_obj, Hpro. unfold param.
  rewrite parse_stringify. apply firstValue_fields_scalar; [|exact Hv].
  apply lookup_assign_same.
Qed.

Lemma shouldCallPro_iff (this : this_t) :
  _shouldCallPro this = true <-> _apiKey this <> VNull.
Proof.
  unfold _shouldCallPro. destruct (_apiKey this); split; intros H;
    try reflexivity; try discriminate; try congruence.
Qed.

(** C7, as amended.  With no configured key the host is the public one and
    the client adds nothing to the parameters: the query is the serialisation
    of the mapping handed to the request routine, and it has an
    [x_cg_pro_api_key] parameter only when that mapping carries the property
    itself. *)
Theorem no_key_public_host_no_injection
    (this : this_t) (p : string) (params : value) :
  _apiKey this = VNull ->
  host (_buildRequestOptions this p params) = HOST
  /\ queryString this params
     = (if isObject params then Some (querystring.stringify params) else None)
  /\ (hasOwn "x_cg_pro_api_key" params = false ->
      param "x_cg_pro_api_key" (queryString this params) = None).
Proof.
  intros Hkey.
  assert (Hpro : _shouldCallPro this = false)
    by (unfold _shouldCallPro; now rewrite Hkey).
  split; [|split].
  - unfold _buildRequestOptions, _resolveHost. simpl. now rewrite Hpro.
  - unfold queryString, _insertApiKeyIntoParams. rewrite Hpro, andb_false_r.
    reflexivity.
  - intros Hown. destruct (isObject params) eqn:Ho.
    + destruct params; try discriminate Ho.
      rewrite queryString_obj, Hpro. unfold param.
      rewrite parse_stringify. apply firstValue_fields_none.
      simpl in Hown. now destruct (lookup "x_cg_pro_api_key" props).
    + now rewrite queryString_absent.
Qed.

(** The default construction, [simple.price]'s mapping: public host, no key
    parameter. *)
Lemma no_key_witness :
  _apiKey (constructor VUndefined) = VNull
  /\ host (_buildRequestOptions (constructor VUndefined) "/simple/price"
             (VObj [("ids", VStr "bitcoin"); ("vs_currencies", VStr "usd")]))
     = "api.coingecko.com"
  /\ param "x_cg_pro_api_key"
       (queryString (constructor VUndefined)
          (VObj [("ids", VStr "bitcoin"); ("vs_currencies", VStr "usd")]))
     = None.
Proof.
  split; [reflexivity|].
  destruct (no_key_public_host_no_injection (constructor VUndefined)
              "/simple/price"
              (VObj [("ids", VStr "bitcoin"); ("vs_currencies", VStr "usd")])
              eq_refl) as (Hhost & _ & Hparam).
  split; [exact Hhost | apply Hparam; reflexivity].
Defined.

(** C7 as stated fails: a client without a key passes on an
    [x_cg_pro_api_key] the caller put into the parameters. *)
Lemma no_key_caller_supplied_parameter :
  _apiKey (constructor VUndefined) = VNull
  /\ run (coins.all (constructor VUndefined)
            (VObj [("x_cg_pro_api_key", VStr "abc")]))
     = ([], Returned {| path := "/api/v3/coins?x_cg_pro_api_key=abc";
                        method := "GET";
                        host := "api.coingecko.com";
                        port := 443;
                        timeout := 30000 |})
  /\ param "x_cg_pro_api_key"
       (queryString (constructor VUndefined)
          (VObj [("x_cg_pro_api_key", VStr "abc")]))
     = Some "abc".
Proof. repeat split. Qed.

Lemma host_pro (this : this_t) (p : string) (params : value) :
  _shouldCallPro this = true ->
  host (_buildRequestOptions this p params) = PRO_HOST.
Proof.
  intros H. unfold _buildRequestOptions, _resolveHost. simpl. now rewrite H.
Qed.

Lemma constructor_key (k : value) :
  _apiKey (constructor k) = VNull <-> k = VUndefined \/ k = VNull.
Proof.
  unfold constructor. simpl. destruct k; simpl; split; intros H;
    try discriminate; try (destruct H; discriminate); auto.
Qed.

(** C10, as amended.  The key counts as configured exactly when the stored
    key is not [null].  The constructor stores [null] for an argument that is
    left out, [undefined] or [null] (the default value applies to an
    explicit [undefined] too), and such a client resolves the public host;
    any other argument is stored as it is.  With the empty string as key,
    [_shouldCallPro] is true, every call resolves the paid host, and the
    empty key is transmitted whenever a parameter object reaches the request
    routine. *)
Theorem key_configured_iff_stored_key_not_null :
  (forall this, _shouldCallPro this = true <-> _apiKey this <> VNull)
  /\ (forall k, _apiKey (constructor k) = VNull <-> k = VUndefined \/ k = VNull)
  /\ (forall k, k <> VUndefined -> _apiKey (constructor k) = k)
  /\ (forall p params,
        _shouldCallPro (constructor VUndefined) = false
        /\ host (_buildRequestOptions (constructor VUndefined) p params) = HOST)
  /\ (forall p params,
        _shouldCallPro (constructor (VStr EmptyString)) = true
        /\ host (_buildRequestOptions (constructor (VStr EmptyString)) p params)
           = PRO_HOST)
  /\ (forall o,
        param "x_cg_pro_api_key" (queryString (constructor (VStr EmptyString)) (VObj o))
        = Some EmptyString).
Proof.
  split; [exact shouldCallPro_iff|].
  split; [exact constructor_key|].
  split; [intros k Hk; destruct k; try reflexivity; now destruct Hk|].
  split; [intros p params; split; reflexivity|].
  split; [intros p params; split; reflexivity|].
  intros o.
  now rewrite (param_queryString_key (constructor (VStr EmptyString)) o eq_refl eq_refl).
Qed.

(** A client built with the key ["k1"] stores it and calls the paid host. *)
Lemma key_configured_witness :
  VStr "k1" <> VUndefined
  /\ _apiKey (constructor (VStr "k1")) = VStr "k1"
  /\ _shouldCallPro (constructor (VStr "k1")) = true.
Proof.
  destruct key_configured_iff_stored_key_not_null as (Hpro & _ & Hstore & _).
  assert (Hk : VStr "k1" <> VUndefined) by discriminate.
  split; [exact Hk|]. split; [exact (Hstore _ Hk)|].
  apply Hpro. rewrite (Hstore _ Hk). discriminate.
Defined.

(** C10 as stated fails: an explicitly passed [undefined] takes the default
    [null], so the key is not configured and the host is the public one. *)
Lemma undefined_key_is_not_configured :
  _apiKey (constructor VUndefined) = VNull
  /\ _shouldCallPro (constructor VUndefined) = false
  /\ run (ping (constructor VUndefined))
     = ([], Returned {| path := "/api/v3/ping";
                        method := "GET";
                        host := "api.coingecko.com";
                        port := 443;
                        timeout := 30000 |}).
Proof. repeat split. Qed.

(** C2, the failing call.  [ping()] on a client with the key ["KEY"] goes to
    the paid host, but hands no parameter object to the request routine: no
    query is built and the key is not transmitted. *)
Theorem ping_with_key_sends_no_key :
  _shouldCallPro (constructor (VStr "KEY")) = true
  /\ run (ping (constructor (VStr "KEY")))
     = ([], Returned {| path := "/api/v3/ping";
                        method := "GET";
                        host := "pro-api.coingecko.com";
                        port := 443;
                        timeout := 30000 |})
  /\ queryString (constructor (VStr "KEY")) VUndefined = None
  /\ param "x_cg_pro_api_key"
       (queryString (constructor (VStr "KEY")) VUndefined)
     = None.
Proof. repeat split. Qed.

(** The sibling path of C2: when a parameter object reaches the request
    routine, a client with a string key calls the paid host and transmits the
    key. *)
Lemma object_params_with_key_send_key
    (this : this_t) (key : string) (p : string) (o : list (string * value)) :
  _apiKey this = VStr key ->
  host (_buildRequestOptions this p (VObj o)) = PRO_HOST
  /\ param "x_cg_pro_api_key" (queryString this (VObj o)) = Some key.
Proof.
  intros Hk.
  assert (Hpro : _shouldCallPro this = true)
    by (unfold _shouldCallPro; now rewrite Hk).
  split; [now apply host_pro|].
  rewrite param_queryString_key; [now rewrite Hk | exact Hpro | now rewrite Hk].
Qed.

(** An empty parameter object on a client without a key serialises to the
    empty string, which is not [undefined]: [coins.all()] asks for a path
    that ends in a question mark. *)
Lemma empty_mapping_without_key_trailing_question_mark :
  run (coins.all (constructor VUndefined) VUndefined)
  = ([], Returned {| path := "/api/v3/coins?";
                     method := "GET";
                     host := "api.coingecko.com";
                     port := 443;
                     timeout := 30000 |})
  /\ _buildRequestOptions (constructor VUndefined) "/coins" (VObj [])
     = {| path := "/api/v3/coins?";
          method := "GET";
          host := "api.coingecko.com";
          port := 443;
          timeout := 30000 |}.
Proof. repeat split. Qed.

(** C3, as amended.  When no parameter mapping reaches the request routine
    (the endpoint passes none, or what it passes is not an object), nothing
    is appended to the endpoint path: the request path is the version prefix
    followed by the endpoint path, with no question mark that the endpoint
    path does not have itself; [ping()] asks for exactly [/api/v3/ping].
    With a string key configured, a parameter object, empty or not, is
    followed by a question mark and a query that carries the key. *)
Theorem absent_mapping_appends_nothing
    (this : this_t) (p : string) (params : value) :
  isObject params = false ->
  path (_buildRequestOptions this p params) = "/api/v3" ++ p
  /\ (occurs "?" p = false ->
      occurs "?" (path (_buildRequestOptions this p params)) = false)
  /\ run (ping this)
     = ([], Returned {| path := "/api/v3/ping";
                        method := "GET";
                        host := _resolveHost this;
                        port := 443;
                        timeout := static_TIMEOUT this |})
  /\ (forall key o,
        _apiKey this = VStr key ->
        exists q,
          path (_buildRequestOptions this p (VObj o))
          = "/api/v3" ++ p ++ "?" ++ q
          /\ param "x_cg_pro_api_key" (Some q) = Some key).
Proof.
  intros H.
  assert (Hpath : path (_buildRequestOptions this p params) = "/api/v3" ++ p)
    by (unfold _buildRequestOptions; now rewrite queryString_absent).
  split; [exact Hpath|]. split; [|split].
  - intros Hp. rewrite Hpath, occurs_app, Hp. reflexivity.
  - reflexivity.
  - intros key o Hk.
    assert (Hpro : _shouldCallPro this = true)
      by (unfold _shouldCallPro; now rewrite Hk).
    pose proof (param_queryString_key this o Hpro) as Hparam.
    rewrite Hk in Hparam. specialize (Hparam eq_refl).
    unfold _buildRequestOptions. rewrite queryString_obj in *.
    eexists. split; [reflexivity | exact Hparam].
Qed.

(** [ping()] on the default client. *)
Lemma absent_mapping_witness :
  isObject VUndefined = false
  /\ path (_buildRequestOptions (constructor VUndefined) "/ping" VUndefined)
     = "/api/v3/ping"
  /\ occurs "?"
       (path (_buildRequestOptions (constructor VUndefined) "/ping" VUndefined))
     = false.
Proof.
  split; [reflexivity|].
  destruct (absent_mapping_appends_nothing (constructor VUndefined) "/ping"
              VUndefined eq_refl) as (Hpath & Hq & _).
  split; [exact Hpath | exact (Hq eq_refl)].
Defined.

(** C3 as stated fails: with a key configured, a call whose parameter
    mapping is empty gets the key inserted, and its path carries a question
    mark and the query. *)
Lemma empty_mapping_with_key_has_query :
  run (coins.all (constructor (VStr "KEY")) (VObj []))
  = ([], Returned {| path := "/api/v3/coins?x_cg_pro_api_key=KEY";
                     method := "GET";
                     host := "pro-api.coingecko.com";
                     port := 443;
                     timeout := 30000 |})
  /\ occurs "?" "/api/v3/coins?x_cg_pro_api_key=KEY" = true.
Proof. repeat split. Qed.

(** ** List-valued parameters *)

Lemma transmits_of_get (this : this_t) (p : string) (o : list (string * value))
    (k s : string) :
  ("x_cg_pro_api_key" =? k) = false ->
  get k o = VStr s ->
  exists q,
    path (_buildRequestOptions this p (VObj o))
    = "/api/v" ++ API_VERSION ++ p ++ "?" ++ q
    /\ param k (Some q) = Some s.
Proof.
  intros Hk Hg.
  pose proof (param_queryString_scalar this o k (VStr s) Hk
                (get_lookup k o s Hg) eq_refl) as Hp.
  unfold _buildRequestOptions. rewrite queryString_obj in *.
  eexists. split; [reflexivity | exact Hp].
Qed.

(** Reads a property through the assignments made before it. *)
Ltac read_through H o :=
  repeat first
    [ rewrite get_assign_same
    | rewrite get_assign_other by reflexivity
    | rewrite H
    | progress cbn [notNonEmptyString isString isStringEmpty negb orb]
    | progress cbv beta iota
    | match goal with
      | |- context [get ?f o] => destruct (get f o) eqn:?
      end
    | match goal with
      | |- context [if ?c then _ else _] => destruct c eqn:?
      end
    | reflexivity ].

(** An endpoint whose final mapping has the string [s] under [k]. *)
Ltac transmits_field this o k s H :=
  unfold bind, _request; run_blocks;
  match goal with
  | |- context [_buildRequestOptions this ?p (VObj ?o')] =>
      let q := fresh "q" in
      let Hq := fresh "Hq" in
      let Hp := fresh "Hp" in
      assert (Hg : get k o' = VStr s) by (read_through H o);
      destruct (transmits_of_get this p o' k s eq_refl Hg) as (q & Hq & Hp);
      eexists; eexists; exists q;
      split; [reflexivity | split; [exact Hq | exact Hp]]
  end.

Section ListCoercion.

Variable this : this_t.
Variable o : list (string * value).
Variable l : list value.

Lemma coins_markets_ids :
  get "ids" o = VArr l ->
  transmits (coins.markets this (VObj o)) "/coins/markets" "ids" (join "," l).
Proof.
  intros H. unfold transmits, coins.markets, run. simpl default.
  transmits_field this o "ids" (join "," l) H.
Qed.

Lemma coins_fetchTickers_exchange_ids coinId :
  get "exchange_ids" o = VArr l ->
  transmits (coins.fetchTickers this coinId (VObj o))
    ("/coins/" ++ ToString coinId ++ "/tickers") "exchange_ids" (join "," l).
Proof.
  intros H. unfold transmits, coins.fetchTickers, run. simpl default.
  transmits_field this o "exchange_ids" (join "," l) H.
Qed.

Lemma exchanges_fetchTickers_coin_ids exchangeId :
  get "coin_ids" o = VArr l ->
  transmits (exchanges.fetchTickers this exchangeId (VObj o))
    ("/exchanges/" ++ ToString exchangeId ++ "/tickers") "coin_ids"
    (join "," l).
Proof.
  intros H. unfold transmits, exchanges.fetchTickers, run. simpl default.
  transmits_field this o "coin_ids" (join "," l) H.
Qed.

Lemma simple_price_ids :
  get "ids" o = VArr l ->
  transmits (simple.price this (VObj o)) "/simple/price" "ids" (join "," l).
Proof.
  intros H. unfold transmits, simple.price, run. simpl default.
  transmits_field this o "ids" (join "," l) H.
Qed.

Lemma simple_price_vs_currencies :
  get "vs_currencies" o = VArr l ->
  transmits (simple.price this (VObj o)) "/simple/price" "vs_currencies"
    (if allWhite (join "," l) then "usd" else join "," l).
Proof.
  intros H. unfold transmits, simple.price, run. simpl default.
  transmits_field this o "vs_currencies"
    (if allWhite (join "," l) then "usd" else join "," l) H.
Qed.

Lemma simple_fetchTokenPrice_contract_addresses assetPlatform :
  get "contract_addresses" o = VArr l ->
  transmits (simple.fetchTokenPrice this (VObj o) assetPlatform)
    ("/simple/token_price/" ++ ToString (default assetPlatform (VStr "ethereum")))
    "contract_addresses" (join "," l).
Proof.
  intros H. unfold transmits, simple.fetchTokenPrice, run. simpl default.
  transmits_field this o "contract_addresses" (join "," l) H.
Qed.

Lemma simple_fetchTokenPrice_vs_currencies assetPlatform :
  get "vs_currencies" o = VArr l ->
  transmits (simple.fetchTokenPrice this (VObj o) assetPlatform)
    ("/simple/token_price/" ++ ToString (default assetPlatform (VStr "ethereum")))
    "vs_currencies" (join "," l).
Proof.
  intros H. unfold transmits, simple.fetchTokenPrice, run. simpl default.
  transmits_field this o "vs_currencies" (join "," l) H.
Qed.

End ListCoercion.




(** ** The default currency of [simple.price] *)

Lemma concat_two (sep a b : string) (rest : list string) :
  exists post, String.concat sep (a :: b :: rest) = a ++ sep ++ b ++ post.
Proof.
  destruct rest as [|c rest].
  - exists EmptyString. simpl. now rewrite append_empty_r.
  - exists (sep ++ String.concat sep (c :: rest)). reflexivity.
Qed.

Lemma not_array_kept {A} (v : value) (f : list value -> A) (d : A) :
  isArray v = false ->
  match v with VArr l => f l | _ => d end = d.
Proof. destruct v; intros H; try reflexivity. discriminate H. Qed.

Lemma bitcoin_query (this : this_t) :
  exists post,
    queryString this
      (VObj [("ids", VStr "bitcoin"); ("vs_currencies", VStr "usd")])
    = Some ("ids=bitcoin&vs_currencies=usd" ++ post).
Proof.
  rewrite queryString_obj. unfold querystring.stringify.
  destruct (_shouldCallPro this).
  - change (assign "x_cg_pro_api_key" (_apiKey this)
              [("ids", VStr "bitcoin"); ("vs_currencies", VStr "usd")])
      with [("ids", VStr "bitcoin"); ("vs_currencies", VStr "usd");
            ("x_cg_pro_api_key", _apiKey this)].
    change (map querystring.encodeField
              (querystring.fields
                 [("ids", VStr "bitcoin"); ("vs_currencies", VStr "usd");
                  ("x_cg_pro_api_key", _apiKey this)]))
      with ("ids=bitcoin" :: "vs_currencies=usd"
            :: map querystring.encodeField
                 (querystring.fields [("x_cg_pro_api_key", _apiKey this)])).
    destruct (concat_two "&" "ids=bitcoin" "vs_currencies=usd"
                (map querystring.encodeField
                   (querystring.fields [("x_cg_pro_api_key", _apiKey this)])))
      as [post ->].
    now exists post.
  - now exists EmptyString.
Qed.

(** C6.  [simple.price({ids: ["bitcoin"]})], on any client: no warning, and
    the query starts with [ids=bitcoin&vs_currencies=usd] (the key, when one
    is configured, comes after it).  More generally, whenever [vs_currencies]
    is absent, not a string, or an empty string, the value transmitted for it
    is ["usd"]. *)
Theorem simple_price_defaults_to_usd (this : this_t) :
  (exists opts post,
     run (simple.price this (VObj [("ids", VArr [VStr "bitcoin"])]))
     = ([], Returned opts)
     /\ path opts
        = "/api/v3/simple/price?" ++ "ids=bitcoin&vs_currencies=usd" ++ post
     /\ contains "ids=bitcoin&vs_currencies=usd" (path opts))
  /\ (forall o,
        isArray (get "vs_currencies" o) = false ->
        notNonEmptyString (get "vs_currencies" o) = true ->
        transmits (simple.price this (VObj o)) "/simple/price"
          "vs_currencies" "usd").
Proof.
  split.
  - destruct (bitcoin_query this) as [post Hq].
    exists (_buildRequestOptions this "/simple/price"
              (VObj [("ids", VStr "bitcoin"); ("vs_currencies", VStr "usd")])).
    exists post.
    assert (Hpath :
      path (_buildRequestOptions this "/simple/price"
              (VObj [("ids", VStr "bitcoin"); ("vs_currencies", VStr "usd")]))
      = "/api/v3/simple/price?" ++ "ids=bitcoin&vs_currencies=usd" ++ post).
    { unfold _buildRequestOptions. now rewrite Hq. }
    split; [reflexivity|]. split; [exact Hpath|].
    rewrite Hpath. exists "/api/v3/simple/price?", post. reflexivity.
  - intros o Harr Hempty.
    unfold transmits, simple.price, run. simpl default.
    unfold bind, _request. run_blocks.
    match goal with
    | |- context [_buildRequestOptions this ?p (VObj ?o')] =>
        assert (Hg : get "vs_currencies" o' = VStr "usd")
    end.
    { rewrite (not_array_kept _ _ o Harr), Hempty.
      destruct (get "ids" (assign "vs_currencies" (VStr "usd") o));
        rewrite ?get_assign_other by reflexivity;
        apply get_assign_same. }
    match goal with
    | |- context [_buildRequestOptions this ?p (VObj ?o')] =>
        destruct (transmits_of_get this p o' "vs_currencies" "usd" eq_refl Hg)
          as (q & Hq & Hp)
    end.
    eexists. eexists. exists q.
    split; [reflexivity | split; [exact Hq | exact Hp]].
Qed.

(** [simple.price({ids: "bitcoin"})] on the default client. *)
Lemma simple_price_witness :
  isArray (get "vs_currencies" [("ids", VStr "bitcoin")]) = false
  /\ notNonEmptyString (get "vs_currencies" [("ids", VStr "bitcoin")]) = true
  /\ transmits
       (simple.price (constructor VUndefined)
          (VObj [("ids", VStr "bitcoin")]))
       "/simple/price" "vs_currencies" "usd"
  /\ run (simple.price (constructor VUndefined)
            (VObj [("ids", VArr [VStr "bitcoin"])]))
     = ([], Returned
              {| path := "/api/v3/simple/price?ids=bitcoin&vs_currencies=usd";
                 method := "GET";
                 host := "api.coingecko.com";
                 port := 443;
                 timeout := 30000 |}).
Proof.
  split; [reflexivity|]. split; [reflexivity|]. split; [|reflexivity].
  exact (proj2 (simple_price_defaults_to_usd (constructor VUndefined))
               [("ids", VStr "bitcoin")] eq_refl eq_refl).
Defined.

(** ** The promise *)

Section Settling.

Variable JSONValue : Type.
Variable JSON_parse : string -> Error + JSONValue.
Variable this : this_t.
Variable res : Response.

#[local] Abbreviation handle := (handle JSONValue JSON_parse this res).
#[local] Abbreviation handleAll := (handleAll JSONValue JSON_parse this res).
#[local] Abbreviation on_end := (on_end JSONValue JSON_parse res).
#[local] Abbreviation returnObject := (returnObject JSONValue res).
#[local] Abbreviation Request := (Request JSONValue).

Lemma success_2xx (b : JSONValue + string) :
  success (returnObject b)
  = ((200 <=? statusCode res) && (statusCode res <? 300))%Z.
Proof.
  unfold Transport.returnObject. cbn [success].
  rewrite negb_orb, Z.geb_leb, <- Z.leb_antisym, <- Z.ltb_antisym.
  reflexivity.
Qed.

Lemma handle_keeps_fulfilledFromResponse (r : Request) (ev : Event) :
  fulfilledFromResponse res r -> fulfilledFromResponse res (handle r ev).
Proof.
  unfold fulfilledFromResponse. intros Hr env.
  destruct ev; cbn [Transport.handle promise].
  - apply Hr.
  - unfold Transport.on_end.
    destruct (JSON_parse (bodyText (body r))) as [e | j]; cbn [promise].
    + destruct (promise r) eqn:Ep; cbn.
      * discriminate.
      * intros H. apply Hr. exact H.
      * discriminate.
    + destruct (promise r) eqn:Ep; cbn.
      * intros H. inversion H. now eexists.
      * intros H. apply Hr. exact H.
      * discriminate.
  - destruct (promise r) eqn:Ep; cbn; try discriminate.
    intros H. apply Hr. exact H.
  - destruct (promise r) eqn:Ep; cbn; try discriminate.
    intros H. apply Hr. exact H.
Qed.

Lemma handleAll_keeps_fulfilledFromResponse (evs : list Event) (r : Request) :
  fulfilledFromResponse res r -> fulfilledFromResponse res (handleAll evs r).
Proof.
  revert r. induction evs as [|ev evs IH]; intros r Hr.
  - exact Hr.
  - cbn. apply IH. now apply handle_keeps_fulfilledFromResponse.
Qed.

Lemma handleAll_data (chunks : list string) (r : Request) :
  handleAll (map data_ chunks) r
  = {| body := (body r ++ chunks)%list; promise := promise r;
       aborted := aborted r; warnings := warnings r |}.
Proof.
  revert r. induction chunks as [|c chunks IH]; intros r.
  - cbn. rewrite app_nil_r. now destruct r.
  - cbn [map]. cbn [Transport.handleAll fold_left].
    match goal with
    | |- fold_left _ _ ?x = _ =>
        change (handleAll (map data_ chunks) x = 
                {| body := (body r ++ c :: chunks)%list; promise := promise r;
                   aborted := aborted r; warnings := warnings r |})
    end.
    rewrite IH. cbn. now rewrite <- app_assoc.
Qed.

Lemma handleAll_data_end (chunks : list string) :
  handleAll (map data_ chunks ++ [end_]) initial
  = on_end {| body := chunks; promise := Pending; aborted := false;
              warnings := [] |}.
Proof.
  unfold Transport.handleAll. rewrite fold_left_app.
  change (fold_left (Transport.handle JSONValue JSON_parse this res)
            (map data_ chunks) initial)
    with (handleAll (map data_ chunks) initial).
  rewrite handleAll_data. reflexivity.
Qed.

End Settling.

Lemma initial_fulfilledFromResponse (JSONValue : Type) (res : Response) :
  fulfilledFromResponse res (@initial JSONValue).
Proof. intros env H. discriminate H. Qed.

(** C1.  Whatever events a request sees, an envelope its promise is
    fulfilled with carries the status code of the response and has
    [success] true if and only if 200 <= code < 300.  A status outside that
    range is no error: once the body parses, the promise is fulfilled with
    an envelope whose [success] is decided by the range alone. *)
Theorem success_iff_status_2xx
    (JSONValue : Type) (JSON_parse : string -> Error + JSONValue)
    (this : this_t) (res : Response) :
  (forall evs env,
     promise (handleAll JSONValue JSON_parse this res evs initial)
     = Fulfilled env ->
     code env = statusCode res
     /\ (success env = true <-> (200 <= statusCode res < 300)%Z))
  /\ (forall chunks json,
        JSON_parse (bodyText chunks) = inr json ->
        promise (handleAll JSONValue JSON_parse this res
                   (map data_ chunks ++ [end_]) initial)
        = Fulfilled
            {| success := ((200 <=? statusCode res)
                           && (statusCode res <? 300))%Z;
               message := statusMessage res;
               code := statusCode res;
               data := inl json |}).
Proof.
  split.
  - intros evs env H.
    destruct (handleAll_keeps_fulfilledFromResponse JSONValue JSON_parse
                this res evs initial
                (initial_fulfilledFromResponse JSONValue res) env H)
      as [b ->].
    split; [reflexivity|].
    rewrite success_2xx, andb_true_iff, Z.leb_le, Z.ltb_lt. reflexivity.
  - intros chunks json Hparse.
    rewrite handleAll_data_end. unfold on_end. cbn [body promise].
    rewrite Hparse. cbn [promise resolve].
    unfold returnObject. f_equal. f_equal.
    apply (success_2xx JSONValue res (inl json)).
Qed.

(** A 404 with a JSON body resolves, with [success] false. *)
Lemma success_iff_status_witness :
  JSON.parse (bodyText ["[404, "; "null]"])
  = inr (JSON.JArray [JSON.JNumber "404"; JSON.JNull])
  /\ promise (handleAll JSON.json JSON.parse (constructor VUndefined)
                (mkResponse 404 "Not Found")
                [data_ "[404, "; data_ "null]"; end_]
                initial)
     = Fulfilled
         {| success := false;
            message := "Not Found";
            code := 404;
            data := inl (JSON.JArray [JSON.JNumber "404"; JSON.JNull]) |}.
Proof.
  split; [reflexivity|].
  exact (proj2 (success_iff_status_2xx JSON.json JSON.parse
                  (constructor VUndefined) (mkResponse 404 "Not Found"))
               ["[404, "; "null]"]
               (JSON.JArray [JSON.JNumber "404"; JSON.JNull])
               eq_refl).
Defined.

Lemma throttled_is_not_a_page (text : string) :
  startsWith "Throttled" text = true ->
  startsWith "<!DOCTYPE html>" text = false.
Proof.
  unfold startsWith. destruct text as [|c text]; [discriminate|].
  destruct c as [[] [] [] [] [] [] [] []]; intros H;
    first [discriminate H | reflexivity].
Qed.

(** C4.  When the response has ended and its body text does not parse as
    JSON, the promise is rejected with the parse error and no envelope is
    resolved (the [resolve] call that follows the [catch] finds the promise
    settled).  A rejection after the response has ended comes from the parse
    error and from nothing else.  A body that starts with [Throttled] leaves
    the "Throttled request" warning in the log before the parse fails. *)
Theorem unparsable_body_rejects
    (JSONValue : Type) (JSON_parse : string -> Error + JSONValue)
    (this : this_t) (res : Response) (chunks : list string) (error : Error) :
  JSON_parse (bodyText chunks) = inl error ->
  promise (handleAll JSONValue JSON_parse this res
             (map data_ chunks ++ [end_]) initial)
  = Rejected error
  /\ (forall env,
        promise (handleAll JSONValue JSON_parse this res
                   (map data_ chunks ++ [end_]) initial)
        <> Fulfilled env)
  /\ (startsWith "Throttled" (bodyText chunks) = true ->
      warnings (handleAll JSONValue JSON_parse this res
                  (map data_ chunks ++ [end_]) initial)
      = [mkWarning "Throttled request"
           "There was a problem with request limit."])
  /\ (forall chunks' error',
        promise (handleAll JSONValue JSON_parse this res
                   (map data_ chunks' ++ [end_]) initial)
        = Rejected error' ->
        JSON_parse (bodyText chunks') = inl error').
Proof.
  intros Hparse. rewrite handleAll_data_end. unfold on_end.
  cbn [body promise warnings]. rewrite Hparse.
  cbn [promise warnings reject resolve].
  split; [reflexivity|]. split; [discriminate|]. split.
  - intros Ht. unfold bodyWarnings.
    now rewrite (throttled_is_not_a_page _ Ht), Ht.
  - intros chunks' error'. rewrite handleAll_data_end. unfold on_end.
    cbn [body promise].
    destruct (JSON_parse (bodyText chunks')) as [e | j];
      cbn [promise reject resolve]; intros H.
    + now inversion H.
    + discriminate H.
Qed.

(** The plain-text body [Throttled], arriving in two chunks. *)
Lemma unparsable_body_witness :
  JSON.parse (bodyText ["Thrott"; "led"])
  = inl (SyntaxError "Unexpected token in JSON")
  /\ promise (handleAll JSON.json JSON.parse (constructor VUndefined)
                (mkResponse 429 "Too Many Requests")
                [data_ "Thrott"; data_ "led"; end_] initial)
     = Rejected (SyntaxError "Unexpected token in JSON")
  /\ warnings (handleAll JSON.json JSON.parse (constructor VUndefined)
                 (mkResponse 429 "Too Many Requests")
                 [data_ "Thrott"; data_ "led"; end_] initial)
     = [mkWarning "Throttled request"
          "There was a problem with request limit."].
Proof.
  split; [reflexivity|].
  destruct (unparsable_body_rejects JSON.json JSON.parse
              (constructor VUndefined) (mkResponse 429 "Too Many Requests")
              ["Thrott"; "led"] (SyntaxError "Unexpected token in JSON")
              eq_refl)
    as (Hp & _ & Hw & _).
  split; [exact Hp | exact (Hw eq_refl)].
Defined.

(** C8.  When the timeout event fires on a request whose promise is still
    pending, [req.abort()] is called and the promise is rejected with an
    error whose message names the configured timeout in milliseconds: the
    value the request options were built with, 30000 unless
    [CoinGecko.TIMEOUT] was changed. *)
Theorem timeout_aborts_and_rejects
    (JSONValue : Type) (JSON_parse : string -> Error + JSONValue)
    (this : this_t) (res : Response) (r : Request JSONValue) :
  promise r = Pending ->
  aborted (handle JSONValue JSON_parse this res r timeout_) = true
  /\ promise (handle JSONValue JSON_parse this res r timeout_)
     = Rejected (PlainError (timeoutMessage this))
  /\ contains (Z_to_string (static_TIMEOUT this) ++ " milliseconds")
       (timeoutMessage this)
  /\ (forall p params,
        timeout (_buildRequestOptions this p params) = static_TIMEOUT this)
  /\ (static_TIMEOUT this = TIMEOUT ->
      timeoutMessage this
      = "CoinGecko API request timed out. Current timeout is: 30000 milliseconds").
Proof.
  intros Hp. cbn [handle aborted promise]. rewrite Hp.
  split; [reflexivity|]. split; [reflexivity|]. split; [|split].
  - exists "CoinGecko API request timed out. Current timeout is: ", EmptyString.
    unfold timeoutMessage. now rewrite append_empty_r.
  - reflexivity.
  - intros Ht. unfold timeoutMessage. now rewrite Ht.
Qed.

(** A request of the default client that has received part of a body. *)
Lemma timeout_witness :
  promise (handleAll JSON.json JSON.parse (constructor VUndefined)
             (mkResponse 200 "OK") [data_ "[1, 2"] initial)
  = Pending
  /\ aborted (handle JSON.json JSON.parse (constructor VUndefined)
                (mkResponse 200 "OK")
                (handleAll JSON.json JSON.parse (constructor VUndefined)
                   (mkResponse 200 "OK") [data_ "[1, 2"] initial)
                timeout_)
     = true
  /\ promise (handle JSON.json JSON.parse (constructor VUndefined)
                (mkResponse 200 "OK")
                (handleAll JSON.json JSON.parse (constructor VUndefined)
                   (mkResponse 200 "OK") [data_ "[1, 2"] initial)
                timeout_)
     = Rejected
         (PlainError
            "CoinGecko API request timed out. Current timeout is: 30000 milliseconds").
Proof.
  split; [reflexivity|].
  destruct (timeout_aborts_and_rejects JSON.json JSON.parse
              (constructor VUndefined) (mkResponse 200 "OK")
              (handleAll JSON.json JSON.parse (constructor VUndefined)
                 (mkResponse 200 "OK") [data_ "[1, 2"] initial)
              eq_refl) as (Ha & Hr & _).
  split; [exact Ha | exact Hr].
Defined.

(** * The rest of the client *)

(** ** Every endpoint ends in the request routine *)

Lemma viaRequest_request (this : this_t) (p : string) (params : value) :
  viaRequest this (_request this (String "/" p) params).
Proof.
  intros w0 w opts H. unfold _request, ret in H. inversion H.
  now exists p, params.
Qed.

Lemma viaRequest_bind {A} (this : this_t) (m : M A) (f : A -> M RequestOptions) :
  (forall a, viaRequest this (f a)) -> viaRequest this (bind m f).
Proof.
  intros Hf w0 w opts H. unfold bind in H.
  destruct (m w0) as [w' [e | a]]; [discriminate H|].
  exact (Hf a w' w opts H).
Qed.

Lemma call_viaRequest (this : this_t) (e : Endpoint) :
  viaRequest this (call this e).
Proof.
  destruct e; cbn [call];
    unfold ping, global, coins.all, coins.list, coins.markets, coins.fetch,
      coins.fetchTickers, coins.fetchHistory, coins.fetchMarketChart,
      coins.fetchMarketChartRange, coins.fetchCoinContractInfo,
      coins.fetchCoinContractMarketChart,
      coins.fetchCoinContractMarketChartRange, exchanges.all, exchanges.list,
      exchanges.fetch, exchanges.fetchTickers, exchanges.fetchVolumeChart,
      exchangeRates.all, simple.price, simple.supportedVsCurrencies,
      simple.fetchTokenPrice, assetPlatforms.all, indexes.all, indexes.fetch,
      indexes.list, derivatives.fetchTickers, derivatives.allExchanges,
      derivatives.fetchExchange, derivatives.listExchanges;
    repeat (apply viaRequest_bind; intros);
    apply viaRequest_request.
Qed.

(** X1.  Whatever endpoint is called with whatever arguments, a request that
    is issued is a GET on port 443, to the host the key decides, with the
    class timeout, and for a path under [/api/v3/]. *)
Theorem every_request_is_a_GET_under_api_v3
    (this : this_t) (e : Endpoint) (w0 w : list Warning)
    (opts : RequestOptions) :
  call this e w0 = (w, Returned opts) ->
  method opts = "GET"
  /\ port opts = 443%Z
  /\ host opts = (if _shouldCallPro this then PRO_HOST else HOST)
  /\ timeout opts = static_TIMEOUT this
  /\ exists rest, path opts = "/api/v3/" ++ rest.
Proof.
  intros H.
  destruct (call_viaRequest this e w0 w opts H) as (p & params & ->).
  split; [reflexivity|]. split; [reflexivity|]. split; [reflexivity|].
  split; [reflexivity|].
  unfold _buildRequestOptions. cbn [path].
  destruct (queryString this params); eexists; reflexivity.
Qed.

(** [coins.fetchTickers("bitcoin", {page: 2})] on a client with a key. *)
Lemma every_request_witness :
  call (constructor (VStr "KEY"))
    (coins_fetchTickers (VStr "bitcoin") (VObj [("page", VNum 2)])) []
  = ([], Returned {| path := "/api/v3/coins/bitcoin/tickers?page=2&x_cg_pro_api_key=KEY";
                     method := "GET";
                     host := "pro-api.coingecko.com";
                     port := 443;
                     timeout := 30000 |})
  /\ host (_buildRequestOptions (constructor (VStr "KEY"))
             "/coins/bitcoin/tickers" (VObj [("page", VNum 2)]))
     = "pro-api.coingecko.com".
Proof.
  split; [reflexivity|].
  exact (proj1 (proj2 (proj2
    (every_request_is_a_GET_under_api_v3 (constructor (VStr "KEY"))
       (coins_fetchTickers (VStr "bitcoin") (VObj [("page", VNum 2)]))
       [] [] _ eq_refl)))).
Defined.

(** ** When an endpoint throws *)

Lemma throwsOnlyTypeError_bind {A B} (m : M A) (f : A -> M B) :
  throwsOnlyTypeError m -> (forall a, throwsOnlyTypeError (f a)) ->
  throwsOnlyTypeError (bind m f).
Proof.
  intros Hm Hf w0 w err H. unfold bind in H.
  destruct (m w0) as [w' [e | a]] eqn:E.
  - inversion H; subst. exact (Hm w0 w err E).
  - exact (Hf a w' w err H).
Qed.

Lemma throwsOnlyTypeError_ret {A} (a : A) : throwsOnlyTypeError (ret a).
Proof. intros w0 w err H. discriminate H. Qed.

Lemma throwsOnlyTypeError_WARN (t d : string) : throwsOnlyTypeError (_WARN_ t d).
Proof. intros w0 w err H. discriminate H. Qed.

Lemma throwsOnlyTypeError_when {A} (c : bool) (m : M A) :
  throwsOnlyTypeError m -> throwsOnlyTypeError (when c m).
Proof.
  intros Hm. unfold when. destruct c.
  - apply throwsOnlyTypeError_bind; [exact Hm|].
    intros a. apply throwsOnlyTypeError_ret.
  - apply throwsOnlyTypeError_ret.
Qed.

Lemma throwsOnlyTypeError_getProp (p : value) (k : string) :
  throwsOnlyTypeError (lift (getProp p k)).
Proof.
  intros w0 w err H. destruct p; cbn in H; inversion H; now eexists.
Qed.

Lemma throwsOnlyTypeError_setProp (p : value) (k : string) (v : value) :
  throwsOnlyTypeError (lift (setProp p k v)).
Proof.
  intros w0 w err H. destruct p; cbn in H; inversion H; now eexists.
Qed.

Lemma throwsOnlyTypeError_callJoin (v : value) (sep : string) :
  throwsOnlyTypeError (lift (callJoin v sep)).
Proof.
  intros w0 w err H. destruct v; cbn in H; inversion H; now eexists.
Qed.

Lemma throwsOnlyTypeError_request (this : this_t) (p : string) (params : value) :
  throwsOnlyTypeError (_request this p params).
Proof. intros w0 w err H. discriminate H. Qed.

(** Splits a computation into its steps. *)
Ltac only_TypeError :=
  repeat first
    [ apply throwsOnlyTypeError_request
    | apply throwsOnlyTypeError_ret
    | apply throwsOnlyTypeError_WARN
    | apply throwsOnlyTypeError_getProp
    | apply throwsOnlyTypeError_setProp
    | apply throwsOnlyTypeError_callJoin
    | apply throwsOnlyTypeError_when
    | apply throwsOnlyTypeError_bind; [|intros]
    | match goal with
      | |- throwsOnlyTypeError (if ?c then _ else _) => destruct c
      end ].

Lemma call_throwsOnlyTypeError (this : this_t) (e : Endpoint) :
  throwsOnlyTypeError (call this e).
Proof.
  destruct e; cbn [call];
    unfold ping, global, coins.all, coins.list, coins.markets, coins.fetch,
      coins.fetchTickers, coins.fetchHistory, coins.fetchMarketChart,
      coins.fetchMarketChartRange, coins.fetchCoinContractInfo,
      coins.fetchCoinContractMarketChart,
      coins.fetchCoinContractMarketChartRange, exchanges.all, exchanges.list,
      exchanges.fetch, exchanges.fetchTickers, exchanges.fetchVolumeChart,
      exchangeRates.all, simple.price, simple.supportedVsCurrencies,
      simple.fetchTokenPrice, assetPlatforms.all, indexes.all, indexes.fetch,
      indexes.list, derivatives.fetchTickers, derivatives.allExchanges,
      derivatives.fetchExchange, derivatives.listExchanges,
      mustBeString, mustBeObject, defaultUsd, defaultDays, joinArray,
      mustHaveTimestamp, mustHave;
    only_TypeError.
Qed.

(** Runs the blocks of an endpoint body from any log. *)
Ltac returns_from_object :=
  unfold bind, _request, ret; run_blocks;
  eexists; eexists; reflexivity.

Lemma call_returns (this : this_t) (e : Endpoint) (w0 : list Warning) :
  objectOrOmitted (paramsOf e) ->
  exists w opts, call this e w0 = (w, Returned opts).
Proof.
  intros Hp.
  destruct (default_params (paramsOf e) Hp) as [o Ho].
  destruct e; cbn [call paramsOf] in *;
    unfold ping, global, coins.all, coins.list, coins.markets, coins.fetch,
      coins.fetchTickers, coins.fetchHistory, coins.fetchMarketChart,
      coins.fetchMarketChartRange, coins.fetchCoinContractInfo,
      coins.fetchCoinContractMarketChart,
      coins.fetchCoinContractMarketChartRange, exchanges.all, exchanges.list,
      exchanges.fetch, exchanges.fetchTickers, exchanges.fetchVolumeChart,
      exchangeRates.all, simple.price, simple.supportedVsCurrencies,
      simple.fetchTokenPrice, assetPlatforms.all, indexes.all, indexes.fetch,
      indexes.list, derivatives.fetchTickers, derivatives.allExchanges,
      derivatives.fetchExchange, derivatives.listExchanges;
    rewrite ?Ho; returns_from_object.
Qed.





(** ** [null] for the parameters *)

(** Runs an endpoint body whose [params] is not an object. *)
Ltac run_plain :=
  cbn [call];
  unfold coins.all, coins.markets, coins.fetch, coins.fetchTickers,
    coins.fetchHistory, coins.fetchMarketChart, coins.fetchMarketChartRange,
    coins.fetchCoinContractMarketChart,
    coins.fetchCoinContractMarketChartRange, exchanges.fetchTickers,
    exchanges.fetchVolumeChart, simple.price, simple.fetchTokenPrice,
    assetPlatforms.all, indexes.all, derivatives.allExchanges,
    derivatives.fetchExchange, defaultUsd, defaultDays, joinArray, mustHave,
    mustHaveTimestamp, mustBeObject, _request, bind;
  repeat first
    [ rewrite mustBeString_run
    | rewrite when_WARN_run
    | progress cbn [default lift getProp setProp ret throw isObject negb] ].



(** ** The promise settles once *)

Section SettlingOnce.

Variable JSONValue : Type.
Variable JSON_parse : string -> Error + JSONValue.
Variable this : this_t.
Variable res : Response.

#[local] Abbreviation handle := (handle JSONValue JSON_parse this res).
#[local] Abbreviation handleAll := (handleAll JSONValue JSON_parse this res).
#[local] Abbreviation on_end := (on_end JSONValue JSON_parse res).
#[local] Abbreviation Request := (Request JSONValue).

Lemma handle_settled (r : Request) (ev : Event) :
  promise r <> Pending -> promise (handle r ev) = promise r.
Proof.
  intros Hs. destruct ev; cbn [Transport.handle promise].
  - reflexivity.
  - unfold Transport.on_end.
    destruct (JSON_parse (bodyText (body r))); cbn [promise];
      destruct (promise r); try reflexivity; now contradiction Hs.
  - destruct (promise r); try reflexivity. now contradiction Hs.
  - destruct (promise r); try reflexivity. now contradiction Hs.
Qed.

Lemma handle_keeps_fulfilledWithParsed (r : Request) (ev : Event) :
  fulfilledWithParsed JSON_parse r ->
  fulfilledWithParsed JSON_parse (handle r ev).
Proof.
  unfold fulfilledWithParsed. intros Hr env.
  destruct ev; cbn [Transport.handle promise].
  - apply Hr.
  - unfold Transport.on_end.
    destruct (JSON_parse (bodyText (body r))) as [e | j] eqn:Ep;
      cbn [promise]; destruct (promise r) eqn:Er; cbn; try discriminate;
      try (intros H; apply Hr; exact H).
    intros H. inversion H. exists (bodyText (body r)), j. now split.
  - destruct (promise r) eqn:Er; cbn; try discriminate.
    intros H. apply Hr. exact H.
  - destruct (promise r) eqn:Er; cbn; try discriminate.
    intros H. apply Hr. exact H.
Qed.

Lemma handleAll_keeps_fulfilledWithParsed (evs : list Event) (r : Request) :
  fulfilledWithParsed JSON_parse r ->
  fulfilledWithParsed JSON_parse (handleAll evs r).
Proof.
  revert r. induction evs as [|ev evs IH]; intros r Hr.
  - exact Hr.
  - cbn. apply IH. now apply handle_keeps_fulfilledWithParsed.
Qed.

End SettlingOnce.

(** X5.  A settled promise stays as it is: whatever events follow (a late
    timeout, an error after the abort, a second end), the first resolution
    or rejection is the one the caller sees. *)
Theorem settled_promise_never_changes
    (JSONValue : Type) (JSON_parse : string -> Error + JSONValue)
    (this : this_t) (res : Response)
    (evs : list Event) (r : Request JSONValue) :
  promise r <> Pending ->
  promise (handleAll JSONValue JSON_parse this res evs r) = promise r.
Proof.
  revert r. induction evs as [|ev evs IH]; intros r Hs.
  - reflexivity.
  - cbn [handleAll fold_left].
    change (promise
              (handleAll JSONValue JSON_parse this res evs
                 (handle JSONValue JSON_parse this res r ev))
            = promise r).
    rewrite IH.
    + now apply handle_settled.
    + now rewrite handle_settled.
Qed.

(** A response that ended with a JSON body, then a timeout and an error. *)
Lemma settled_promise_witness :
  promise (handleAll JSON.json JSON.parse (constructor VUndefined)
             (mkResponse 200 "OK") [data_ "[1, 2]"; end_] initial)
  <> Pending
  /\ promise (handleAll JSON.json JSON.parse (constructor VUndefined)
                (mkResponse 200 "OK")
                [timeout_; error_ (SystemError "ECONNRESET")]
                (handleAll JSON.json JSON.parse (constructor VUndefined)
                   (mkResponse 200 "OK") [data_ "[1, 2]"; end_] initial))
     = Fulfilled
         {| success := true;
            message := "OK";
            code := 200;
            data := inl (JSON.JArray [JSON.JNumber "1"; JSON.JNumber "2"]) |}.
Proof.
  assert (H : promise (handleAll JSON.json JSON.parse (constructor VUndefined)
                         (mkResponse 200 "OK") [data_ "[1, 2]"; end_] initial)
              <> Pending) by discriminate.
  split; [exact H|].
  rewrite (settled_promise_never_changes JSON.json JSON.parse
             (constructor VUndefined) (mkResponse 200 "OK")
             [timeout_; error_ (SystemError "ECONNRESET")] _ H).
  reflexivity.
Defined.

(** X6.  An envelope is only ever delivered with a parsed value in [data]:
    the return object that carries the raw body text is built after a parse
    failure, when the promise is already rejected, and never reaches the
    caller. *)
Theorem fulfilled_data_is_parsed
    (JSONValue : Type) (JSON_parse : string -> Error + JSONValue)
    (this : this_t) (res : Response)
    (evs : list Event) (env : ReturnObject JSONValue) :
  promise (handleAll JSONValue JSON_parse this res evs initial)
  = Fulfilled env ->
  exists text json, JSON_parse text = inr json /\ data env = inl json.
Proof.
  apply (handleAll_keeps_fulfilledWithParsed JSONValue JSON_parse this res
           evs initial).
  intros env' H. discriminate H.
Qed.

(** A 500 whose body is JSON. *)
Lemma fulfilled_data_witness :
  promise (handleAll JSON.json JSON.parse (constructor VUndefined)
             (mkResponse 500 "Internal Server Error")
             [data_ "{}"; end_] initial)
  = Fulfilled
      {| success := false;
         message := "Internal Server Error";
         code := 500;
         data := inl (JSON.JObject []) |}
  /\ exists text json,
       JSON.parse text = inr json
       /\ @inl JSON.json string (JSON.JObject []) = inl json.
Proof.
  split; [reflexivity|].
  exact (fulfilled_data_is_parsed JSON.json JSON.parse
           (constructor VUndefined) (mkResponse 500 "Internal Server Error")
           [data_ "{}"; end_] _ eq_refl).
Defined.

(** X7.  How the body is cut into chunks does not matter: two responses
    whose chunks concatenate to the same text end with the same promise and
    the same warnings. *)
Theorem chunking_does_not_matter
    (JSONValue : Type) (JSON_parse : string -> Error + JSONValue)
    (this : this_t) (res : Response) (chunks chunks' : list string) :
  bodyText chunks = bodyText chunks' ->
  promise (handleAll JSONValue JSON_parse this res
             (map data_ chunks ++ [end_]) initial)
  = promise (handleAll JSONValue JSON_parse this res
               (map data_ chunks' ++ [end_]) initial)
  /\ warnings (handleAll JSONValue JSON_parse this res
                 (map data_ chunks ++ [end_]) initial)
     = warnings (handleAll JSONValue JSON_parse this res
                   (map data_ chunks' ++ [end_]) initial).
Proof.
  intros H. rewrite !handleAll_data_end. unfold on_end.
  cbn [body promise warnings]. rewrite H.
  destruct (JSON_parse (bodyText chunks')); split; reflexivity.
Qed.

(** The same array in one piece and in three. *)
Lemma chunking_witness :
  bodyText ["[1, 2]"] = bodyText ["[1"; ", "; "2]"]
  /\ promise (handleAll JSON.json JSON.parse (constructor VUndefined)
                (mkResponse 200 "OK") (map data_ ["[1, 2]"] ++ [end_]) initial)
     = promise (handleAll JSON.json JSON.parse (constructor VUndefined)
                  (mkResponse 200 "OK")
                  (map data_ ["[1"; ", "; "2]"] ++ [end_]) initial).
Proof.
  split; [reflexivity|].
  exact (proj1 (chunking_does_not_matter JSON.json JSON.parse
                  (constructor VUndefined) (mkResponse 200 "OK")
                  ["[1, 2]"] ["[1"; ", "; "2]"] eq_refl)).
Defined.

(** X8.  A body that starts with [<!DOCTYPE html>] logs the one warning
    "Invalid request" and nothing else changes: the promise is rejected when
    the text does not parse and fulfilled when it does, as for any body. *)
Theorem html_page_warns_only
    (JSONValue : Type) (JSON_parse : string -> Error + JSONValue)
    (this : this_t) (res : Response) (chunks : list string) :
  startsWith "<!DOCTYPE html>" (bodyText chunks) = true ->
  warnings (handleAll JSONValue JSON_parse this res
              (map data_ chunks ++ [end_]) initial)
  = [mkWarning "Invalid request"
       "There was a problem with your request. The parameter(s) you gave are missing or incorrect."]
  /\ promise (handleAll JSONValue JSON_parse this res
                (map data_ chunks ++ [end_]) initial)
     = match JSON_parse (bodyText chunks) with
       | inl error => Rejected error
       | inr json => Fulfilled (returnObject JSONValue res (inl json))
       end.
Proof.
  intros H. rewrite handleAll_data_end. unfold on_end.
  cbn [body promise warnings]. unfold bodyWarnings. rewrite H.
  destruct (JSON_parse (bodyText chunks)); split; reflexivity.
Qed.

(** An error page. *)
Lemma html_page_witness :
  startsWith "<!DOCTYPE html>"
    (bodyText ["<!DOCTYPE html><html>"; "<body>404</body></html>"]) = true
  /\ promise (handleAll JSON.json JSON.parse (constructor VUndefined)
                (mkResponse 404 "Not Found")
                (map data_ ["<!DOCTYPE html><html>"; "<body>404</body></html>"]
                 ++ [end_]) initial)
     = Rejected (SyntaxError "Unexpected token in JSON").
Proof.
  split; [reflexivity|].
  rewrite (proj2 (html_page_warns_only JSON.json JSON.parse
                    (constructor VUndefined) (mkResponse 404 "Not Found")
                    ["<!DOCTYPE html><html>"; "<body>404</body></html>"]
                    eq_refl)).
  reflexivity.
Defined.

(** ** What the query carries *)

Lemma fields_cons (kv : string * value) (o : list (string * value)) :
  querystring.fields (kv :: o)
  = (querystring.fieldsOf kv ++ querystring.fields o)%list.
Proof. reflexivity. Qed.

Lemma firstValue_app (k : string) (fs gs : list (string * string)) :
  firstValue k (fs ++ gs)
  = match firstValue k fs with
    | Some v => Some v
    | None => firstValue k gs
    end.
Proof.
  induction fs as [|[k' v'] fs IH]; simpl.
  - reflexivity.
  - destruct (k' =? k); [reflexivity | exact IH].
Qed.

(** Assigning one property leaves what is transmitted for the others. *)
Lemma firstValue_fields_assign_other (k k' : string) (v : value)
    (o : list (string * value)) :
  (k' =? k) = false ->
  firstValue k (querystring.fields (assign k' v o))
  = firstValue k (querystring.fields o).
Proof.
  intros Hk. induction o as [|[k0 v0] o IH].
  - cbn [assign]. rewrite fields_cons.
    now rewrite firstValue_app_miss by now apply fieldsOf_keys.
  - cbn [assign]. destruct (k0 =? k') eqn:E.
    + apply String.eqb_eq in E; subst k0. rewrite !fields_cons.
      now rewrite !firstValue_app_miss by now apply fieldsOf_keys.
    + rewrite !fields_cons, !firstValue_app. now rewrite IH.
Qed.

Lemma param_queryString_other (this : this_t) (o : list (string * value))
    (k : string) :
  ("x_cg_pro_api_key" =? k) = false ->
  param k (queryString this (VObj o)) = firstValue k (querystring.fields o).
Proof.
  intros Hk. rewrite queryString_obj. unfold param. rewrite parse_stringify.
  destruct (_shouldCallPro this); [|reflexivity].
  now apply firstValue_fields_assign_other.
Qed.

(** X9.  With a string key configured and a parameter object handed to the
    request routine, the key that is transmitted is the configured one, even
    when the caller's mapping has an [x_cg_pro_api_key] of its own; every
    other parameter is transmitted as serialising the caller's mapping alone
    would transmit it. *)
Theorem key_overrides_and_leaves_the_rest
    (this : this_t) (o : list (string * value)) (key k : string) :
  _apiKey this = VStr key ->
  ("x_cg_pro_api_key" =? k) = false ->
  param "x_cg_pro_api_key" (queryString this (VObj o)) = Some key
  /\ param k (queryString this (VObj o))
     = firstValue k (querystring.fields o).
Proof.
  intros Hkey Hk. split.
  - assert (Hpro : _shouldCallPro this = true)
      by (unfold _shouldCallPro; now rewrite Hkey).
    rewrite param_queryString_key; [now rewrite Hkey | exact Hpro |].
    now rewrite Hkey.
  - now apply param_queryString_other.
Qed.

(** A caller who passes a key of their own to a client that has one. *)
Lemma key_overrides_witness :
  _apiKey (constructor (VStr "KEY")) = VStr "KEY"
  /\ ("x_cg_pro_api_key" =? "page") = false
  /\ queryString (constructor (VStr "KEY"))
       (VObj [("x_cg_pro_api_key", VStr "mine"); ("page", VNum 2)])
     = Some "x_cg_pro_api_key=KEY&page=2"
  /\ param "x_cg_pro_api_key"
       (queryString (constructor (VStr "KEY"))
          (VObj [("x_cg_pro_api_key", VStr "mine"); ("page", VNum 2)]))
     = Some "KEY"
  /\ param "page"
       (queryString (constructor (VStr "KEY"))
          (VObj [("x_cg_pro_api_key", VStr "mine"); ("page", VNum 2)]))
     = Some "2".
Proof.
  split; [reflexivity|]. split; [reflexivity|]. split; [reflexivity|].
  destruct (key_overrides_and_leaves_the_rest (constructor (VStr "KEY"))
              [("x_cg_pro_api_key", VStr "mine"); ("page", VNum 2)]
              "KEY" "page" eq_refl eq_refl) as [H1 H2].
  split; [exact H1 | exact H2].
Defined.

(** X10.  The query that [_buildRequestOptions] appends for a parameter
    object reads back, field for field and in order, as the properties of
    that object followed by the key when one is configured: scalars as
    printed, an array as one field per element, nothing lost to the
    encoding. *)
Theorem query_reads_back_as_the_mapping
    (this : this_t) (p : string) (o : list (string * value)) :
  exists q,
    path (_buildRequestOptions this p (VObj o)) = "/api/v3" ++ p ++ "?" ++ q
    /\ parse q
       = querystring.fields
           (if _shouldCallPro this
            then assign "x_cg_pro_api_key" (_apiKey this) o else o).
Proof.
  unfold _buildRequestOptions. rewrite queryString_obj.
  eexists. split; [reflexivity|]. apply parse_stringify.
Qed.

(** X11.  Sending a mapping again changes nothing: the key insertion, the
    currency default, the day default and the joining of a list are each
    without effect on a mapping they were already applied to.  (Each call
    updates the caller's object in place, so a caller who reuses it hands
    the endpoint such a mapping.) *)
Theorem normalising_twice_is_normalising_once
    (this : this_t) (params : value) (f : string)
    (o : list (string * value)) (w : list Warning) :
  _insertApiKeyIntoParams this (_insertApiKeyIntoParams this params)
  = _insertApiKeyIntoParams this params
  /\ bind (defaultUsd f (VObj o)) (defaultUsd f) w = defaultUsd f (VObj o) w
  /\ bind (defaultDays (VObj o)) defaultDays w = defaultDays (VObj o) w
  /\ bind (joinArray f (VObj o)) (joinArray f) w = joinArray f (VObj o) w.
Proof.
  split; [|split; [|split]].
  - unfold _insertApiKeyIntoParams.
    destruct params; cbn [isObject andb]; try reflexivity.
    destruct (_shouldCallPro this); cbn [isObject andb]; [|reflexivity].
    f_equal. induction props as [|[k0 v0] props IH]; cbn [assign].
    + now rewrite String.eqb_refl.
    + destruct (k0 =? "x_cg_pro_api_key") eqn:E; cbn [assign].
      * now rewrite String.eqb_refl.
      * rewrite E. now rewrite IH.
  - unfold bind at 1. rewrite defaultUsd_obj. cbv beta iota.
    rewrite defaultUsd_obj.
    destruct (notNonEmptyString (get f o)) eqn:E.
    + now rewrite get_assign_same.
    + now rewrite E.
  - unfold bind at 1. rewrite defaultDays_obj. cbv beta iota.
    rewrite defaultDays_obj.
    destruct (looseEqUndefined (get "days" o)) eqn:E.
    + now rewrite get_assign_same.
    + now rewrite E.
  - unfold bind at 1. rewrite joinArray_obj. cbv beta iota.
    rewrite joinArray_obj.
    destruct (get f o) eqn:E; rewrite ?get_assign_same, ?E; reflexivity.
Qed.

(** ** Reusing the parameter object *)

Lemma assign_twice (k : string) (v : value) (o : list (string * value)) :
  assign k v (assign k v o) = assign k v o.
Proof.
  induction o as [|[k0 v0] o IH]; cbn [assign].
  - now rewrite String.eqb_refl.
  - destruct (k0 =? k) eqn:E; cbn [assign].
    + now rewrite String.eqb_refl.
    + now rewrite E, IH.
Qed.

Lemma defaultUsd_withUsd (f : string) (o : list (string * value))
    (w : list Warning) :
  defaultUsd f (VObj o) w = (w, Returned (VObj (withUsd f o))).
Proof. apply defaultUsd_obj. Qed.

Lemma joinArray_withJoined (f : string) (o : list (string * value))
    (w : list Warning) :
  joinArray f (VObj o) w = (w, Returned (VObj (withJoined f o))).
Proof. apply joinArray_obj. Qed.

Lemma insertApiKey_withKey (this : this_t) (o : list (string * value)) :
  _insertApiKeyIntoParams this (VObj o) = VObj (withKey this o).
Proof.
  unfold _insertApiKeyIntoParams, withKey. cbn [isObject andb].
  now destruct (_shouldCallPro this).
Qed.

Lemma build_withKey (this : this_t) (p : string) (o : list (string * value)) :
  _buildRequestOptions this p (VObj (withKey this o))
  = _buildRequestOptions this p (VObj o).
Proof.
  unfold _buildRequestOptions. rewrite !queryString_obj. unfold withKey.
  destruct (_shouldCallPro this); [|reflexivity].
  now rewrite assign_twice.
Qed.

Lemma get_withKey (this : this_t) (k : string) (o : list (string * value)) :
  ("x_cg_pro_api_key" =? k) = false -> get k (withKey this o) = get k o.
Proof.
  intros H. unfold withKey. destruct (_shouldCallPro this); [|reflexivity].
  now apply get_assign_other.
Qed.

Lemma get_withUsd_other (f k : string) (o : list (string * value)) :
  (f =? k) = false -> get k (withUsd f o) = get k o.
Proof.
  intros H. unfold withUsd. destruct (notNonEmptyString (get f o));
    [now apply get_assign_other | reflexivity].
Qed.

Lemma get_withJoined_other (f k : string) (o : list (string * value)) :
  (f =? k) = false -> get k (withJoined f o) = get k o.
Proof.
  intros H. unfold withJoined. destruct (get f o); try reflexivity.
  now apply get_assign_other.
Qed.

Lemma withUsd_settled (f : string) (o : list (string * value)) :
  notNonEmptyString (get f (withUsd f o)) = false.
Proof.
  unfold withUsd. destruct (notNonEmptyString (get f o)) eqn:E.
  - now rewrite get_assign_same.
  - exact E.
Qed.

Lemma withJoined_settled (f : string) (o : list (string * value)) :
  isArray (get f (withJoined f o)) = false.
Proof.
  unfold withJoined. destruct (get f o) eqn:E; rewrite ?get_assign_same, ?E;
    reflexivity.
Qed.

Lemma withUsd_fixed (f : string) (o : list (string * value)) :
  notNonEmptyString (get f o) = false -> withUsd f o = o.
Proof. intros H. unfold withUsd. now rewrite H. Qed.

Lemma withJoined_fixed (f : string) (o : list (string * value)) :
  isArray (get f o) = false -> withJoined f o = o.
Proof. intros H. unfold withJoined. now destruct (get f o). Qed.

Lemma nonEmptyString_not_array (v : value) :
  notNonEmptyString v = false -> isArray v = false.
Proof. now destruct v. Qed.

Lemma coins_markets_run (this : this_t) (o : list (string * value)) :
  run (coins.markets this (VObj o))
  = ([], Returned
           (_buildRequestOptions this "/coins/markets"
              (VObj (withJoined "ids" (withUsd "vs_currency" o))))).
Proof.
  unfold coins.markets, run. cbn [default]. unfold bind, _request, ret.
  rewrite mustBeObject_obj. cbv beta iota.
  rewrite defaultUsd_withUsd. cbv beta iota.
  rewrite joinArray_withJoined. reflexivity.
Qed.

Lemma simple_price_run (this : this_t) (o : list (string * value)) :
  run (simple.price this (VObj o))
  = (if notNonEmptyString
          (get "ids"
             (withJoined "ids"
                (withUsd "vs_currencies" (withJoined "vs_currencies" o))))
     then [mkWarning "Invalid parameter"
             "params.ids must be of type: String or Array and greater than 0 characters."]
     else [],
     Returned
       (_buildRequestOptions this "/simple/price"
          (VObj (withJoined "ids"
                   (withUsd "vs_currencies"
                      (withJoined "vs_currencies" o)))))).
Proof.
  unfold simple.price, run. cbn [default]. unfold bind, _request, ret.
  rewrite mustBeObject_obj. cbv beta iota.
  rewrite joinArray_withJoined. cbv beta iota.
  rewrite defaultUsd_withUsd. cbv beta iota.
  rewrite joinArray_withJoined. cbv beta iota.
  cbn [lift getProp ret]. rewrite when_WARN_run. reflexivity.
Qed.

(** X12.  A call leaves its parameter object normalised and, with a key,
    carrying the key.  Handing that same object to [coins.markets] or to
    [simple.price] again issues the same request, with the same warnings, as
    the first call. *)
Theorem reused_params_give_the_same_request
    (this : this_t) (o : list (string * value)) :
  run (coins.markets this (VObj o))
  = ([], Returned
           (_buildRequestOptions this "/coins/markets"
              (VObj (withJoined "ids" (withUsd "vs_currency" o)))))
  /\ run (coins.markets this
            (_insertApiKeyIntoParams this
               (VObj (withJoined "ids" (withUsd "vs_currency" o)))))
     = run (coins.markets this (VObj o))
  /\ (exists w,
        run (simple.price this (VObj o))
        = (w, Returned
                (_buildRequestOptions this "/simple/price"
                   (VObj (withJoined "ids"
                            (withUsd "vs_currencies"
                               (withJoined "vs_currencies" o)))))))
  /\ run (simple.price this
            (_insertApiKeyIntoParams this
               (VObj (withJoined "ids"
                        (withUsd "vs_currencies"
                           (withJoined "vs_currencies" o))))))
     = run (simple.price this (VObj o)).
Proof.
  split; [apply coins_markets_run|]. split; [|split].
  - rewrite insertApiKey_withKey, !coins_markets_run.
    rewrite (withUsd_fixed "vs_currency").
    + rewrite (withJoined_fixed "ids").
      * now rewrite build_withKey.
      * rewrite get_withKey by reflexivity. apply withJoined_settled.
    + rewrite get_withKey, get_withJoined_other by reflexivity.
      apply withUsd_settled.
  - eexists. apply simple_price_run.
  - rewrite insertApiKey_withKey, !simple_price_run.
    assert (Hvs : notNonEmptyString
                    (get "vs_currencies"
                       (withKey this
                          (withJoined "ids"
                             (withUsd "vs_currencies"
                                (withJoined "vs_currencies" o))))) = false).
    { rewrite get_withKey, get_withJoined_other by reflexivity.
      apply withUsd_settled. }
    rewrite (withJoined_fixed "vs_currencies")
      by (now apply nonEmptyString_not_array).
    rewrite (withUsd_fixed "vs_currencies") by exact Hvs.
    rewrite (withJoined_fixed "ids" (withKey _ _))
      by (rewrite get_withKey by reflexivity; apply withJoined_settled).
    rewrite get_withKey by reflexivity.
    now rewrite build_withKey.
Qed.

(** ** Defaults and what is passed on *)

Lemma defaultDays_withDays (o : list (string * value)) (w : list Warning) :
  defaultDays (VObj o) w = (w, Returned (VObj (withDays o))).
Proof. apply defaultDays_obj. Qed.

Lemma get_withDays_other (k : string) (o : list (string * value)) :
  ("days" =? k) = false -> get k (withDays o) = get k o.
Proof.
  intros H. unfold withDays. destruct (looseEqUndefined (get "days" o));
    [now apply get_assign_other | reflexivity].
Qed.

Lemma get_withUsd_same (f : string) (o : list (string * value)) :
  get f (withUsd f o) = VStr (currencySent (get f o)).
Proof.
  unfold withUsd, currencySent.
  destruct (get f o) eqn:E; cbn; rewrite ?get_assign_same; try reflexivity.
  destruct (allWhite s); [now rewrite get_assign_same | exact E].
Qed.

Lemma get_withDays_same (o : list (string * value)) :
  get "days" (withDays o)
  = if looseEqUndefined (get "days" o) then VNum 1 else get "days" o.
Proof.
  unfold withDays. destruct (looseEqUndefined (get "days" o));
    [apply get_assign_same | reflexivity].
Qed.

Lemma firstValue_fields_withUsd (f k : string) (o : list (string * value)) :
  (f =? k) = false ->
  firstValue k (querystring.fields (withUsd f o))
  = firstValue k (querystring.fields o).
Proof.
  intros H. unfold withUsd. destruct (notNonEmptyString (get f o));
    [now apply firstValue_fields_assign_other | reflexivity].
Qed.

Lemma firstValue_fields_withJoined (f k : string) (o : list (string * value)) :
  (f =? k) = false ->
  firstValue k (querystring.fields (withJoined f o))
  = firstValue k (querystring.fields o).
Proof.
  intros H. unfold withJoined. destruct (get f o); try reflexivity.
  now apply firstValue_fields_assign_other.
Qed.

Lemma firstValue_fields_withDays (k : string) (o : list (string * value)) :
  ("days" =? k) = false ->
  firstValue k (querystring.fields (withDays o))
  = firstValue k (querystring.fields o).
Proof.
  intros H. unfold withDays. destruct (looseEqUndefined (get "days" o));
    [now apply firstValue_fields_assign_other | reflexivity].
Qed.

(** What the request routine transmits for a parameter other than the key. *)
Lemma build_param (this : this_t) (p : string) (o : list (string * value))
    (k : string) :
  ("x_cg_pro_api_key" =? k) = false ->
  exists q,
    path (_buildRequestOptions this p (VObj o))
    = "/api/v" ++ API_VERSION ++ p ++ "?" ++ q
    /\ param k (Some q) = firstValue k (querystring.fields o).
Proof.
  intros Hk. pose proof (param_queryString_other this o k Hk) as Hp.
  unfold _buildRequestOptions. rewrite queryString_obj in *.
  eexists. split; [reflexivity | exact Hp].
Qed.

Lemma firstValue_fields_get_scalar (k : string) (o : list (string * value)) :
  isArray (get k o) = false ->
  get k o <> VUndefined ->
  firstValue k (querystring.fields o)
  = Some (querystring.stringifyPrimitive (get k o)).
Proof.
  intros Ha Hu. unfold get in *. destruct (lookup k o) as [v|] eqn:E.
  - now apply firstValue_fields_scalar.
  - now contradiction Hu.
Qed.

(** Runs the blocks of an endpoint body, naming the mappings they leave. *)
Ltac run_named :=
  unfold bind, _request, ret;
  repeat first
    [ rewrite mustBeString_run
    | rewrite mustBeObject_obj
    | rewrite defaultUsd_withUsd
    | rewrite defaultDays_withDays
    | rewrite joinArray_withJoined
    | rewrite when_WARN_run
    | match goal with
      | |- context [mustHaveTimestamp ?f (VObj ?o) ?w] =>
          let extra := fresh "extra" in
          destruct (mustHaveTimestamp_obj f o w) as [extra ->]
      | |- context [mustHave ?f (VObj ?o) ?w] =>
          let extra := fresh "extra" in
          destruct (mustHave_obj f o w) as [extra ->]
      end
    | progress cbv beta iota
    | progress cbn [lift getProp ret default] ].

(** Closes a [transmits] or [passesOn] goal once the body has run: [tac]
    computes what the final mapping holds for the parameter. *)
Ltac sends this k tac :=
  match goal with
  | |- context [_buildRequestOptions this ?p (VObj ?o')] =>
      let q := fresh "q" in
      let Hq := fresh "Hq" in
      let Hp := fresh "Hp" in
      destruct (build_param this p o' k) as (q & Hq & Hp);
      [ try reflexivity; try assumption
      | eexists; eexists; exists q;
        split; [reflexivity | split; [exact Hq | rewrite Hp; tac]] ]
  end.

Lemma currency_in_final (o N : list (string * value)) :
  get "vs_currency" N = VStr (currencySent (get "vs_currency" o)) ->
  firstValue "vs_currency" (querystring.fields N)
  = Some (currencySent (get "vs_currency" o)).
Proof.
  intros H. rewrite firstValue_fields_get_scalar; rewrite H;
    [reflexivity | reflexivity | discriminate].
Qed.

(** X13.  The five endpoints with a [vs_currency] parameter transmit the
    caller's currency when it is a string that is not blank, and ["usd"] in
    every other case: absent, empty, blank, or not a string. *)
Theorem vs_currency_is_kept_or_usd
    (this : this_t) (o : list (string * value)) (id id' : value) :
  transmits (coins.markets this (VObj o)) "/coins/markets" "vs_currency"
    (currencySent (get "vs_currency" o))
  /\ transmits (coins.fetchMarketChart this id (VObj o))
       ("/coins/" ++ ToString id ++ "/market_chart") "vs_currency"
       (currencySent (get "vs_currency" o))
  /\ transmits (coins.fetchMarketChartRange this id (VObj o))
       ("/coins/" ++ ToString id ++ "/market_chart/range") "vs_currency"
       (currencySent (get "vs_currency" o))
  /\ transmits (coins.fetchCoinContractMarketChart this id id' (VObj o))
       ("/coins/" ++ ToString (default id' (VStr "ethereum"))
        ++ "/contract/" ++ ToString id ++ "/market_chart") "vs_currency"
       (currencySent (get "vs_currency" o))
  /\ transmits (coins.fetchCoinContractMarketChartRange this id id' (VObj o))
       ("/coins/" ++ ToString (default id' (VStr "ethereum"))
        ++ "/contract/" ++ ToString id ++ "/market_chart/range") "vs_currency"
       (currencySent (get "vs_currency" o)).
Proof.
  repeat split.
  - unfold transmits, coins.markets, run. run_named.
    sends this "vs_currency"
      ltac:(apply currency_in_final;
            rewrite get_withJoined_other by reflexivity;
            apply get_withUsd_same).
  - unfold transmits, coins.fetchMarketChart, run. run_named.
    sends this "vs_currency"
      ltac:(apply currency_in_final;
            rewrite get_withDays_other by reflexivity;
            apply get_withUsd_same).
  - unfold transmits, coins.fetchMarketChartRange, run. run_named.
    sends this "vs_currency"
      ltac:(apply currency_in_final; apply get_withUsd_same).
  - unfold transmits, coins.fetchCoinContractMarketChart, run. run_named.
    sends this "vs_currency"
      ltac:(apply currency_in_final;
            rewrite get_withDays_other by reflexivity;
            apply get_withUsd_same).
  - unfold transmits, coins.fetchCoinContractMarketChartRange, run. run_named.
    sends this "vs_currency"
      ltac:(apply currency_in_final;
            rewrite get_withDays_other by reflexivity;
            apply get_withUsd_same).
Qed.

(** [coins.markets] with a currency, with a blank one, and with a number. *)
Lemma vs_currency_witness :
  transmits (coins.markets (constructor VUndefined)
               (VObj [("vs_currency", VStr "eur")]))
    "/coins/markets" "vs_currency" "eur"
  /\ transmits (coins.markets (constructor VUndefined)
                  (VObj [("vs_currency", VStr "  ")]))
       "/coins/markets" "vs_currency" "usd"
  /\ transmits (coins.markets (constructor VUndefined)
                  (VObj [("vs_currency", VNum 7)]))
       "/coins/markets" "vs_currency" "usd".
Proof.
  split; [|split].
  - exact (proj1 (vs_currency_is_kept_or_usd (constructor VUndefined)
                    [("vs_currency", VStr "eur")] VUndefined VUndefined)).
  - exact (proj1 (vs_currency_is_kept_or_usd (constructor VUndefined)
                    [("vs_currency", VStr "  ")] VUndefined VUndefined)).
  - exact (proj1 (vs_currency_is_kept_or_usd (constructor VUndefined)
                    [("vs_currency", VNum 7)] VUndefined VUndefined)).
Defined.

Lemma days_in_final (o N : list (string * value)) :
  isArray (get "days" o) = false ->
  get "days" N
  = (if looseEqUndefined (get "days" o) then VNum 1 else get "days" o) ->
  firstValue "days" (querystring.fields N)
  = Some (if looseEqUndefined (get "days" o) then "1"
          else querystring.stringifyPrimitive (get "days" o)).
Proof.
  intros Ha H. rewrite firstValue_fields_get_scalar; rewrite H.
  - now destruct (looseEqUndefined (get "days" o)).
  - now destruct (looseEqUndefined (get "days" o)).
  - destruct (get "days" o); cbn; discriminate.
Qed.

(** X14.  [coins.fetchMarketChart] and the two contract chart endpoints,
    the range one included, transmit [days=1] when the caller gives no
    [days] (absent, [undefined] or [null]) and the caller's value, printed,
    when there is one. *)
Theorem days_default_to_one
    (this : this_t) (o : list (string * value)) (id id' : value) :
  isArray (get "days" o) = false ->
  transmits (coins.fetchMarketChart this id (VObj o))
    ("/coins/" ++ ToString id ++ "/market_chart") "days"
    (if looseEqUndefined (get "days" o) then "1"
     else querystring.stringifyPrimitive (get "days" o))
  /\ transmits (coins.fetchCoinContractMarketChart this id id' (VObj o))
       ("/coins/" ++ ToString (default id' (VStr "ethereum"))
        ++ "/contract/" ++ ToString id ++ "/market_chart") "days"
       (if looseEqUndefined (get "days" o) then "1"
        else querystring.stringifyPrimitive (get "days" o))
  /\ transmits (coins.fetchCoinContractMarketChartRange this id id' (VObj o))
       ("/coins/" ++ ToString (default id' (VStr "ethereum"))
        ++ "/contract/" ++ ToString id ++ "/market_chart/range") "days"
       (if looseEqUndefined (get "days" o) then "1"
        else querystring.stringifyPrimitive (get "days" o)).
Proof.
  intros Ha.
  assert (Hd : get "days" (withDays (withUsd "vs_currency" o))
               = (if looseEqUndefined (get "days" o) then VNum 1
                  else get "days" o)).
  { rewrite get_withDays_same. now rewrite get_withUsd_other by reflexivity. }
  repeat split.
  - unfold transmits, coins.fetchMarketChart, run. run_named.
    sends this "days" ltac:(now apply days_in_final).
  - unfold transmits, coins.fetchCoinContractMarketChart, run. run_named.
    sends this "days" ltac:(now apply days_in_final).
  - unfold transmits, coins.fetchCoinContractMarketChartRange, run. run_named.
    sends this "days" ltac:(now apply days_in_final).
Qed.

(** [fetchMarketChart("bitcoin", {})] and [fetchMarketChart("bitcoin",
    {days: "max"})]. *)
Lemma days_witness :
  isArray (get "days" []) = false
  /\ transmits (coins.fetchMarketChart (constructor VUndefined)
                  (VStr "bitcoin") (VObj []))
       "/coins/bitcoin/market_chart" "days" "1"
  /\ isArray (get "days" [("days", VStr "max")]) = false
  /\ transmits (coins.fetchMarketChart (constructor VUndefined)
                  (VStr "bitcoin") (VObj [("days", VStr "max")]))
       "/coins/bitcoin/market_chart" "days" "max".
Proof.
  split; [reflexivity|]. split.
  - exact (proj1 (days_default_to_one (constructor VUndefined) []
                    (VStr "bitcoin") VUndefined eq_refl)).
  - split; [reflexivity|].
    exact (proj1 (days_default_to_one (constructor VUndefined)
                    [("days", VStr "max")] (VStr "bitcoin") VUndefined
                    eq_refl)).
Defined.

(** X15.  [coins.fetchHistory] without a [date] only warns: the "Missing
    parameter" warning is logged, the request is issued, no [date] is
    transmitted, and nothing stands in for it. *)
Theorem fetchHistory_without_date_only_warns
    (this : this_t) (o : list (string * value)) (id : value) :
  lookup "date" o = None ->
  exists w opts q,
    run (coins.fetchHistory this id (VObj o)) = (w, Returned opts)
    /\ In (mkWarning "Missing parameter"
             "params must include `date` and be a string in format: `dd-mm-yyyy`")
          w
    /\ path opts
       = "/api/v3" ++ ("/coins/" ++ ToString id ++ "/history") ++ "?" ++ q
    /\ param "date" (Some q) = None.
Proof.
  intros Hd.
  assert (Hg : get "date" o = VUndefined) by (unfold get; now rewrite Hd).
  unfold coins.fetchHistory, run. run_named. rewrite Hg.
  destruct (build_param this
              ("/" ++ coins.pathPrefix ++ "/" ++ ToString id ++ "/history")
              o "date" eq_refl) as (q & Hq & Hp).
  eexists. eexists. exists q.
  split; [reflexivity|]. split; [|split].
  - apply in_or_app. right. now left.
  - exact Hq.
  - rewrite Hp. now apply firstValue_fields_none.
Qed.

(** [coins.fetchHistory("bitcoin", {localization: false})]. *)
Lemma fetchHistory_witness :
  lookup "date" [("localization", VBool false)] = None
  /\ run (coins.fetchHistory (constructor VUndefined) (VStr "bitcoin")
            (VObj [("localization", VBool false)]))
     = ([mkWarning "Missing parameter"
           "params must include `date` and be a string in format: `dd-mm-yyyy`"],
        Returned {| path := "/api/v3/coins/bitcoin/history?localization=false";
                    method := "GET";
                    host := "api.coingecko.com";
                    port := 443;
                    timeout := 30000 |}).
Proof.
  split; [reflexivity|].
  destruct (fetchHistory_without_date_only_warns (constructor VUndefined)
              [("localization", VBool false)] (VStr "bitcoin") eq_refl)
    as (w & opts & q & Hrun & _).
  reflexivity.
Defined.

(** Unfolds an endpoint on a parameter object and closes a [passesOn] goal
    for a parameter no block writes. *)
Ltac passes_on this k :=
  unfold passesOn, run; run_named;
  sends this k
    ltac:(repeat first
            [ rewrite firstValue_fields_withJoined by assumption
            | rewrite firstValue_fields_withUsd by assumption
            | rewrite firstValue_fields_withDays by assumption ];
          reflexivity).

(** X16.  A parameter that is none of the eight names the client writes
    itself is passed on by every endpoint that takes parameters exactly as
    the caller's mapping has it: none is dropped, renamed or given a
    default. *)
Theorem other_parameters_pass_through
    (this : this_t) (o : list (string * value)) (k : string)
    (id id' : value) :
  (forall f,
     In f ["vs_currency"; "vs_currencies"; "ids"; "days"; "exchange_ids";
           "coin_ids"; "contract_addresses"; "x_cg_pro_api_key"] ->
     (f =? k) = false) ->
  passesOn (coins.all this (VObj o)) "/coins" k o
  /\ passesOn (coins.markets this (VObj o)) "/coins/markets" k o
  /\ passesOn (coins.fetch this id (VObj o)) ("/coins/" ++ ToString id) k o
  /\ passesOn (coins.fetchTickers this id (VObj o))
       ("/coins/" ++ ToString id ++ "/tickers") k o
  /\ passesOn (coins.fetchHistory this id (VObj o))
       ("/coins/" ++ ToString id ++ "/history") k o
  /\ passesOn (coins.fetchMarketChart this id (VObj o))
       ("/coins/" ++ ToString id ++ "/market_chart") k o
  /\ passesOn (coins.fetchMarketChartRange this id (VObj o))
       ("/coins/" ++ ToString id ++ "/market_chart/range") k o
  /\ passesOn (coins.fetchCoinContractMarketChart this id id' (VObj o))
       ("/coins/" ++ ToString (default id' (VStr "ethereum"))
        ++ "/contract/" ++ ToString id ++ "/market_chart") k o
  /\ passesOn (coins.fetchCoinContractMarketChartRange this id id' (VObj o))
       ("/coins/" ++ ToString (default id' (VStr "ethereum"))
        ++ "/contract/" ++ ToString id ++ "/market_chart/range") k o
  /\ passesOn (exchanges.fetchTickers this id (VObj o))
       ("/exchanges/" ++ ToString id ++ "/tickers") k o
  /\ passesOn (exchanges.fetchVolumeChart this id (VObj o))
       ("/exchanges/" ++ ToString id ++ "/volume_chart") k o
  /\ passesOn (simple.price this (VObj o)) "/simple/price" k o
  /\ passesOn (simple.fetchTokenPrice this (VObj o) id)
       ("/simple/token_price/" ++ ToString (default id (VStr "ethereum"))) k o
  /\ passesOn (assetPlatforms.all this (VObj o)) "/asset_platforms" k o
  /\ passesOn (indexes.all this (VObj o)) "/indexes" k o
  /\ passesOn (derivatives.allExchanges this (VObj o))
       "/derivatives/exchanges" k o
  /\ passesOn (derivatives.fetchExchange this id (VObj o))
       ("/derivatives/exchanges/" ++ ToString id) k o.
Proof.
  intros H.
  assert (H1 : ("vs_currency" =? k) = false) by (apply H; simpl; tauto).
  assert (H2 : ("vs_currencies" =? k) = false) by (apply H; simpl; tauto).
  assert (H3 : ("ids" =? k) = false) by (apply H; simpl; tauto).
  assert (H4 : ("days" =? k) = false) by (apply H; simpl; tauto).
  assert (H5 : ("exchange_ids" =? k) = false) by (apply H; simpl; tauto).
  assert (H6 : ("coin_ids" =? k) = false) by (apply H; simpl; tauto).
  assert (H7 : ("contract_addresses" =? k) = false) by (apply H; simpl; tauto).
  assert (H8 : ("x_cg_pro_api_key" =? k) = false) by (apply H; simpl; tauto).
  clear H.
  repeat split.
  - unfold coins.all. passes_on this k.
  - unfold coins.markets. passes_on this k.
  - unfold coins.fetch. passes_on this k.
  - unfold coins.fetchTickers. passes_on this k.
  - unfold coins.fetchHistory. passes_on this k.
  - unfold coins.fetchMarketChart. passes_on this k.
  - unfold coins.fetchMarketChartRange. passes_on this k.
  - unfold coins.fetchCoinContractMarketChart. passes_on this k.
  - unfold coins.fetchCoinContractMarketChartRange. passes_on this k.
  - unfold exchanges.fetchTickers. passes_on this k.
  - unfold exchanges.fetchVolumeChart. passes_on this k.
  - unfold simple.price. passes_on this k.
  - unfold simple.fetchTokenPrice. passes_on this k.
  - unfold assetPlatforms.all. passes_on this k.
  - unfold indexes.all. passes_on this k.
  - unfold derivatives.allExchanges. passes_on this k.
  - unfold derivatives.fetchExchange. passes_on this k.
Qed.

(** [page] through [coins.markets] on a client with a key. *)
Lemma pass_through_witness :
  (forall f,
     In f ["vs_currency"; "vs_currencies"; "ids"; "days"; "exchange_ids";
           "coin_ids"; "contract_addresses"; "x_cg_pro_api_key"] ->
     (f =? "page") = false)
  /\ passesOn (coins.markets (constructor (VStr "KEY"))
                 (VObj [("page", VNum 3); ("ids", VArr [VStr "bitcoin"])]))
       "/coins/markets" "page"
       [("page", VNum 3); ("ids", VArr [VStr "bitcoin"])]
  /\ firstValue "page"
       (querystring.fields [("page", VNum 3); ("ids", VArr [VStr "bitcoin"])])
     = Some "3".
Proof.
  assert (H : forall f,
            In f ["vs_currency"; "vs_currencies"; "ids"; "days";
                  "exchange_ids"; "coin_ids"; "contract_addresses";
                  "x_cg_pro_api_key"] ->
            (f =? "page") = false).
  { intros f Hin. simpl in Hin.
    repeat (destruct Hin as [<- | Hin]; [reflexivity|]). contradiction. }
  split; [exact H|]. split; [|reflexivity].
  exact (proj1 (proj2 (other_parameters_pass_through (constructor (VStr "KEY"))
                         [("page", VNum 3); ("ids", VArr [VStr "bitcoin"])]
                         "page" VUndefined VUndefined H))).
Defined.

(** X17.  The ten endpoints declared without arguments never warn and never
    throw; their request path is the version prefix and the endpoint path
    with nothing after it, and no key is transmitted, whatever the client's
    key. *)
Theorem endpoints_without_arguments_send_no_query
    (this : this_t) (e : Endpoint) :
  noArguments e = true ->
  exists p,
    call this e [] = ([], Returned (_buildRequestOptions this p VUndefined))
    /\ path (_buildRequestOptions this p VUndefined) = "/api/v3" ++ p
    /\ occurs "?" (path (_buildRequestOptions this p VUndefined)) = false
    /\ param "x_cg_pro_api_key" (queryString this VUndefined) = None.
Proof.
  intros H. destruct e; try discriminate H; eexists; repeat split.
Qed.

(** [global()] on a client with a key. *)
Lemma endpoints_without_arguments_witness :
  noArguments global_ = true
  /\ exists p,
       call (constructor (VStr "KEY")) global_ []
       = ([], Returned
                (_buildRequestOptions (constructor (VStr "KEY")) p VUndefined))
       /\ path (_buildRequestOptions (constructor (VStr "KEY")) p VUndefined)
          = "/api/v3" ++ p.
Proof.
  split; [reflexivity|].
  destruct (endpoints_without_arguments_send_no_query
              (constructor (VStr "KEY")) global_ eq_refl)
    as (p & Hcall & Hpath & _).
  exists p. split; [exact Hcall | exact Hpath].
Defined.

(** X18.  [simple.price] with a parameter object that has no [ids] logs
    exactly the one warning about [params.ids] and still issues the request:
    no [ids] is transmitted, and the currency is handled as usual. *)
Theorem simple_price_without_ids_only_warns
    (this : this_t) (o : list (string * value)) :
  lookup "ids" o = None ->
  exists opts q,
    run (simple.price this (VObj o))
    = ([mkWarning "Invalid parameter"
          "params.ids must be of type: String or Array and greater than 0 characters."],
       Returned opts)
    /\ path opts = "/api/v3" ++ "/simple/price" ++ "?" ++ q
    /\ param "ids" (Some q) = None
    /\ param "vs_currencies" (Some q)
       = Some (currencySent
                 (get "vs_currencies" (withJoined "vs_currencies" o))).
Proof.
  intros Hl.
  set (N := withUsd "vs_currencies" (withJoined "vs_currencies" o)).
  assert (HlN : lookup "ids" N = None).
  { unfold N, withUsd, withJoined.
    destruct (get "vs_currencies" o);
      match goal with
      | |- context [if ?c then _ else _] => destruct c
      end;
      rewrite ?lookup_assign_other by reflexivity; exact Hl. }
  assert (Hu : get "ids" N = VUndefined) by (unfold get; now rewrite HlN).
  assert (Hfixed : withJoined "ids" N = N)
    by (apply withJoined_fixed; now rewrite Hu).
  rewrite simple_price_run. fold N. rewrite Hfixed, Hu.
  cbn [notNonEmptyString isString isStringEmpty negb orb].
  destruct (build_param this "/simple/price" N "ids" eq_refl)
    as (q & Hq & Hp).
  destruct (build_param this "/simple/price" N "vs_currencies" eq_refl)
    as (q' & Hq' & Hp').
  assert (Heq : q' = q).
  { rewrite Hq in Hq'. cbn in Hq'. now inversion Hq'. }
  subst q'.
  eexists. exists q. split; [reflexivity|]. split; [exact Hq|]. split.
  - rewrite Hp. now apply firstValue_fields_none.
  - rewrite Hp'. unfold N in *.
    rewrite firstValue_fields_get_scalar; rewrite get_withUsd_same;
      [reflexivity | reflexivity | discriminate].
Qed.

(** [simple.price({vs_currencies: ["eur", "gbp"]})]. *)
Lemma simple_price_without_ids_witness :
  lookup "ids" [("vs_currencies", VArr [VStr "eur"; VStr "gbp"])] = None
  /\ run (simple.price (constructor VUndefined)
            (VObj [("vs_currencies", VArr [VStr "eur"; VStr "gbp"])]))
     = ([mkWarning "Invalid parameter"
           "params.ids must be of type: String or Array and greater than 0 characters."],
        Returned {| path := "/api/v3/simple/price?vs_currencies=eur%2Cgbp";
                    method := "GET";
                    host := "api.coingecko.com";
                    port := 443;
                    timeout := 30000 |}).
Proof.
  split; [reflexivity|].
  destruct (simple_price_without_ids_only_warns (constructor VUndefined)
              [("vs_currencies", VArr [VStr "eur"; VStr "gbp"])] eq_refl)
    as (opts & q & Hrun & _).
  reflexivity.
Defined.

Lemma lookup_withJoined_none (f g : string) (o : list (string * value)) :
  lookup f o = None -> lookup f (withJoined g o) = None.
Proof.
  intros Hl. unfold withJoined. destruct (get g o) eqn:E; try exact Hl.
  destruct (g =? f) eqn:Egf.
  - apply String.eqb_eq in Egf; subst g.
    unfold get in E. rewrite Hl in E. discriminate E.
  - now rewrite lookup_assign_other.
Qed.

Lemma mustHave_run (f : string) (o : list (string * value)) (w : list Warning) :
  mustHave f (VObj o) w
  = ((w ++ if negb (truthy (get f o))
           then [mkWarning "Missing parameter"
                   ("params must include `" ++ f
                    ++ "` and be a of type: String or Object")]
           else [])%list,
     Returned tt).
Proof.
  unfold mustHave, bind. cbn [lift getProp ret]. apply when_WARN_run.
Qed.

(** X19.  [simple.fetchTokenPrice] without [contract_addresses], or without
    [vs_currencies], only warns: the "Missing parameter" warning for that
    field is logged, the request is issued, and the field is not
    transmitted; unlike [simple.price], no currency is filled in. *)
Theorem fetchTokenPrice_missing_field_only_warns
    (this : this_t) (o : list (string * value)) (platform : value)
    (f : string) :
  f = "contract_addresses" \/ f = "vs_currencies" ->
  lookup f o = None ->
  exists w opts q,
    run (simple.fetchTokenPrice this (VObj o) platform) = (w, Returned opts)
    /\ In (mkWarning "Missing parameter"
             ("params must include `" ++ f
              ++ "` and be a of type: String or Object")) w
    /\ path opts
       = "/api/v3"
         ++ ("/simple/token_price/"
             ++ ToString (default platform (VStr "ethereum")))
         ++ "?" ++ q
    /\ param f (Some q) = None.
Proof.
  intros Hf Hl.
  assert (Hg : get f o = VUndefined) by (unfold get; now rewrite Hl).
  assert (Hkey : ("x_cg_pro_api_key" =? f) = false)
    by (destruct Hf as [-> | ->]; reflexivity).
  unfold simple.fetchTokenPrice, run. cbn [default].
  unfold bind, _request, ret.
  rewrite mustBeObject_obj. cbv beta iota.
  rewrite mustBeString_run. cbv beta iota.
  rewrite mustHave_run. cbv beta iota.
  rewrite mustHave_run. cbv beta iota.
  rewrite joinArray_withJoined. cbv beta iota.
  rewrite joinArray_withJoined. cbv beta iota.
  match goal with
  | |- context [_buildRequestOptions this ?p (VObj ?N)] =>
      destruct (build_param this p N f Hkey) as (q & Hq & Hp);
      assert (HN : lookup f N = None)
  end.
  { now repeat apply lookup_withJoined_none. }
  eexists. eexists. exists q.
  split; [reflexivity|]. split; [|split; [exact Hq|]].
  - destruct Hf as [-> | ->]; rewrite Hg; cbn [truthy negb];
      rewrite !in_app_iff; simpl; tauto.
  - rewrite Hp. now apply firstValue_fields_none.
Qed.

(** [simple.fetchTokenPrice({contract_addresses: "0xabc"})]: no currency. *)
Lemma fetchTokenPrice_witness :
  ("vs_currencies" = "contract_addresses" \/ "vs_currencies" = "vs_currencies")
  /\ lookup "vs_currencies" [("contract_addresses", VStr "0xabc")] = None
  /\ run (simple.fetchTokenPrice (constructor VUndefined)
            (VObj [("contract_addresses", VStr "0xabc")]) VUndefined)
     = ([mkWarning "Missing parameter"
           "params must include `vs_currencies` and be a of type: String or Object"],
        Returned {| path := "/api/v3/simple/token_price/ethereum?contract_addresses=0xabc";
                    method := "GET";
                    host := "api.coingecko.com";
                    port := 443;
                    timeout := 30000 |}).
Proof.
  split; [now right|]. split; [reflexivity|].
  destruct (fetchTokenPrice_missing_field_only_warns (constructor VUndefined)
              [("contract_addresses", VStr "0xabc")] VUndefined
              "vs_currencies" (or_intror eq_refl) eq_refl)
    as (w & opts & q & Hrun & _).
  reflexivity.
Defined.

(** X20.  An identifier that is a string and not blank raises no warning and
    goes into the path exactly as it is, without any escaping, whatever
    characters it has. *)
Theorem valid_identifier_goes_in_verbatim
    (this : this_t) (s : string) (o : list (string * value)) :
  allWhite s = false ->
  run (coins.fetch this (VStr s) (VObj o))
  = ([], Returned (_buildRequestOptions this ("/coins/" ++ s) (VObj o)))
  /\ run (coins.fetchTickers this (VStr s) (VObj o))
     = ([], Returned
              (_buildRequestOptions this ("/coins/" ++ s ++ "/tickers")
                 (VObj (withJoined "exchange_ids" o))))
  /\ run (exchanges.fetch this (VStr s))
     = ([], Returned
              (_buildRequestOptions this ("/exchanges/" ++ s) VUndefined))
  /\ run (exchanges.fetchVolumeChart this (VStr s) (VObj o))
     = ([], Returned
              (_buildRequestOptions this
                 ("/exchanges/" ++ s ++ "/volume_chart") (VObj o)))
  /\ run (derivatives.fetchExchange this (VStr s) (VObj o))
     = ([], Returned
              (_buildRequestOptions this ("/derivatives/exchanges/" ++ s)
                 (VObj o)))
  /\ run (indexes.fetch this (VStr s) (VStr s))
     = ([], Returned
              (_buildRequestOptions this ("/indexes/" ++ s ++ "/" ++ s)
                 VUndefined))
  /\ path (_buildRequestOptions this ("/exchanges/" ++ s) VUndefined)
     = "/api/v3/exchanges/" ++ s.
Proof.
  intros Hs.
  assert (Hv : notNonEmptyString (VStr s) = false) by exact Hs.
  repeat split.
  - unfold coins.fetch, run. run_named. now rewrite Hv.
  - unfold coins.fetchTickers, run. run_named. now rewrite Hv.
  - unfold exchanges.fetch, run. run_named. now rewrite Hv.
  - unfold exchanges.fetchVolumeChart, run. run_named. now rewrite Hv.
  - unfold derivatives.fetchExchange, run. run_named. now rewrite Hv.
  - unfold indexes.fetch, run. run_named. now rewrite Hv.
Qed.

(** An identifier with a slash, a question mark and a space in it. *)
Lemma valid_identifier_witness :
  allWhite "a/b?c d" = false
  /\ run (exchanges.fetch (constructor VUndefined) (VStr "a/b?c d"))
     = ([], Returned {| path := "/api/v3/exchanges/a/b?c d";
                        method := "GET";
                        host := "api.coingecko.com";
                        port := 443;
                        timeout := 30000 |}).
Proof.
  split; [reflexivity|].
  rewrite (proj1 (proj2 (proj2
    (valid_identifier_goes_in_verbatim (constructor VUndefined) "a/b?c d" []
       eq_refl)))).
  reflexivity.
Defined.
